(** * ExecutiveModel: spreadsheet ingestion, model nodes, wiring and ranks

    A shallow embedding of the JavaScript sources

    - [utils/parseExcel]  ([readVariableNames], [parseExcelFile]),
    - [nodes/ModelNode.jsx] ([patchData], [onDrop], the rendered handles),
    - [App.jsx] ([SAMPLE_NODES], [SAMPLE_EDGES], [onConnect]),

    together with the order engine that the specification describes but the
    sources do not contain yet.

    JavaScript strings are embedded as [string]: a sequence of code units,
    here the code units U+0000..U+00FF.  Objects used as records become
    records, objects used as dictionaries (a row of a sheet, the [Sheets]
    table of a workbook) become [gmap]s keyed by strings, arrays become
    lists. *)

From Stdlib Require Import Ascii String ZArith Lia.
From stdpp Require Import base decidable option list relations gmap strings pretty.

Local Open Scope stdpp_scope.

(* ===================================================================== *)
(** ** The fragment of JavaScript the sources rely on *)
(* ===================================================================== *)

Module Js.

(** ECMAScript [WhiteSpace] and [LineTerminator] code points below
    U+0100: TAB, LF, VT, FF, CR, SP and NBSP.  These are the characters
    [String.prototype.trim] strips. *)
Definition isWhiteSpace (c : ascii) : bool :=
  match N_of_ascii c with
  | 9 | 10 | 11 | 12 | 13 | 32 | 160 => true
  | _ => false
  end%N.

Fixpoint trimStart (s : string) : string :=
  match s with
  | EmptyString => EmptyString
  | String c s' => if isWhiteSpace c then trimStart s' else s
  end.

Fixpoint trimEnd (s : string) : string :=
  match s with
  | EmptyString => EmptyString
  | String c s' =>
      match trimEnd s' with
      | EmptyString => if isWhiteSpace c then EmptyString else String c EmptyString
      | t => String c t
      end
  end.

(** [s.trim()] *)
Definition trim (s : string) : string := trimEnd (trimStart s).

(** [Boolean(s)] for a string [s]: only the empty string is falsy. *)
Definition truthy (s : string) : bool :=
  match s with
  | EmptyString => false
  | String _ _ => true
  end.

(** [a.join(sep)] for an array of strings. *)
Definition join (sep : string) (a : list string) : string :=
  String.concat sep a.

(** [a.includes(x)] for an array of strings. *)
Definition includes (a : list string) (x : string) : bool :=
  bool_decide (x ∈ a).

(** [a.find(p)]: the first element satisfying [p], or [undefined]. *)
Fixpoint find {A} (p : A → bool) (a : list A) : option A :=
  match a with
  | [] => None
  | x :: a' => if p x then Some x else find p a'
  end.

(** ASCII lower-casing, for the [/i] flag of a regular expression whose
    pattern is ASCII: a non-ASCII code unit never matches an ASCII one. *)
Definition toLowerAscii (c : ascii) : ascii :=
  let n := N_of_ascii c in
  if ((65 <=? n) && (n <=? 90))%N then ascii_of_N (n + 32) else c.

Fixpoint lower (s : string) : string :=
  match s with
  | EmptyString => EmptyString
  | String c s' => String (toLowerAscii c) (lower s')
  end.

(** [s] ends with [suf]. *)
Fixpoint endsWith (s suf : string) : bool :=
  if bool_decide (s = suf) then true
  else match s with
       | EmptyString => false
       | String _ s' => endsWith s' suf
       end.

(** An [Error] object. *)
Record Error := mkError { message : string }.

(** What library code throws: an [Error] object or a bare string; the
    [xlsx] library throws both. *)
Inductive Thrown :=
| ThrownError (e : Error)
| ThrownString (s : string).

(** [`${err.message}`] for a caught value [err]: the message of an
    [Error] object; a string has no [message] property, so the access
    yields [undefined], which the template literal prints. *)
Definition messageText (err : Thrown) : string :=
  match err with
  | ThrownError e => message e
  | ThrownString _ => "undefined"
  end.

(** Code that may throw: [inl e] is a thrown value, [inr a] a normal
    completion with value [a]. *)
Definition M (A : Type) : Type := Thrown + A.

Definition ret {A} (a : A) : M A := inr a.
Definition throw {A} (e : Thrown) : M A := inl e.
Definition bind {A B} (m : M A) (k : A → M B) : M B :=
  match m with
  | inl e => inl e
  | inr a => k a
  end.

(** [try { body } catch (err) { handler }] *)
Definition tryCatch {A} (body : M A) (handler : Thrown → A) : A :=
  match body with
  | inl e => handler e
  | inr a => a
  end.

(** The state of a promise. *)
Inductive Promise (A : Type) : Type :=
| Pending
| Resolved (a : A)
| Rejected (e : Thrown).
Arguments Pending {A}.
Arguments Resolved {A} a.
Arguments Rejected {A} e.

(** The values a cell of a sheet can hold once it has been read, and
    the two absent values.  The number type and its conversion to a
    string are those of the host; they are parameters of [toString]. *)
Inductive Value (number : Type) : Type :=
| Undefined
| Null
| Boolean (b : bool)
| Number (n : number)
| Str (s : string).
Arguments Undefined {number}.
Arguments Null {number}.
Arguments Boolean {number} b.
Arguments Number {number} n.
Arguments Str {number} s.

(** [String(v)] *)
Definition toString {number} (numberToString : number → string)
    (v : Value number) : string :=
  match v with
  | Undefined => "undefined"
  | Null => "null"
  | Boolean true => "true"
  | Boolean false => "false"
  | Number n => numberToString n
  | Str s => s
  end.

(** [v ?? d] *)
Definition nullish {number} (v d : Value number) : Value number :=
  match v with
  | Undefined | Null => d
  | _ => v
  end.

(** [o[k]] on an object used as a dictionary. *)
Definition get {number} (o : gmap string (Value number)) (k : string)
    : Value number :=
  match o !! k with
  | Some v => v
  | None => Undefined
  end.

End Js.

Notation "'let*' x ':=' m 'in' k" := (Js.bind m (fun x => k))
  (at level 10, x name, m at level 100, k at level 200, only parsing).

(* ===================================================================== *)
(** ** utils/parseExcel *)
(* ===================================================================== *)

Module ParseExcel.

Import Js.

(** What [parseExcelFile] resolves with. *)
Record ParseResult := mkParseResult {
  filename : string;
  inputs : list string;
  outputs : list string;
  error : option string   (* [None] is [null] *)
}.

(** The part of a [File] the code reads. *)
Record File := mkFile { name : string }.

(** The event a [FileReader] fires after [readAsArrayBuffer]: [load]
    with the bytes of the file, or [error].  The reader is local to
    [parseExcelFile] and never aborted. *)
Inductive ReaderEvent :=
| LoadEvent (result : list Byte.byte)
| ErrorEvent.

Definition REQUIRED_SHEETS : list string := ["INPUTS"; "OUTPUTS"].

Section WithXLSX.

(** The [xlsx] library, which is not part of the repository.
    [XLSX_read bytes] is [XLSX.read(new Uint8Array(bytes), {type:'array'})],
    [sheet_to_json ws] is [XLSX.utils.sheet_to_json(ws, {defval:''})],
    where [ws] is [None] when the [Sheets] table has no such sheet.
    Both may throw. *)
Variable number : Type.
Variable numberToString : number → string.
Variable WorkSheet : Type.

Abbreviation Row := (gmap string (Value number)).

Record WorkBook := mkWorkBook {
  SheetNames : list string;
  Sheets : gmap string WorkSheet
}.

Variable XLSX_read : list Byte.byte → M WorkBook.
Variable sheet_to_json : option WorkSheet → M (list Row).

(** [rows.map(row => String(row['variable_name'] ?? '').trim()).filter(Boolean)] *)
Definition variableNamesOfRows (rows : list Row) : list string :=
  List.filter truthy
    (List.map
       (fun row => trim (toString numberToString
                           (nullish (get row "variable_name") (Str ""))))
       rows).

Definition readVariableNames (sheet : option WorkSheet) : M (list string) :=
  let* rows := sheet_to_json sheet in
  ret (variableNamesOfRows rows).

(** [REQUIRED_SHEETS.filter(s => !found.includes(s))] *)
Definition missingSheets (found : list string) : list string :=
  List.filter (fun s => negb (includes found s)) REQUIRED_SHEETS.

Definition missingMessage (missing found : list string) : string :=
  let missingList := join " and " missing in
  let foundList :=
    match length found with
    | 0 => "(no sheets found)"
    | S _ => join ", " found
    end in
  ("Required sheet" +:+ (if 1 <? length missing then "s" else "")
     +:+ " not found: " +:+ missingList +:+ ". ")
  +:+ ("Sheets in this file: " +:+ foundList +:+ ".").

(** The body of the [try] block of [reader.onload]; its value is the
    argument [resolve] is called with. *)
Definition onloadTry (file : File) (result : list Byte.byte) : M ParseResult :=
  let* workbook := XLSX_read result in
  let found := SheetNames workbook in
  let missing := missingSheets found in
  if 0 <? length missing then
    ret {| filename := name file;
           inputs := [];
           outputs := [];
           error := Some (missingMessage missing found) |}
  else
    let* rawInputs := sheet_to_json (Sheets workbook !! "INPUTS") in
    let* rawOutputs := sheet_to_json (Sheets workbook !! "OUTPUTS") in
    let* ins := readVariableNames (Sheets workbook !! "INPUTS") in
    let* outs := readVariableNames (Sheets workbook !! "OUTPUTS") in
    ret {| filename := name file;
           inputs := ins;
           outputs := outs;
           error := None |}.

Definition onload (file : File) (result : list Byte.byte) : Promise ParseResult :=
  Resolved
    (tryCatch (onloadTry file result)
       (fun err =>
          {| filename := name file;
             inputs := [];
             outputs := [];
             error := Some ("Could not parse file: " +:+ messageText err) |})).

Definition onerror (file : File) : Promise ParseResult :=
  Resolved
    {| filename := name file;
       inputs := [];
       outputs := [];
       error := Some "Failed to read the file from disk." |}.

(** The promise returned by [parseExcelFile(file)], once the reader
    has fired [ev]. *)
Definition parseExcelFile (file : File) (ev : ReaderEvent) : Promise ParseResult :=
  match ev with
  | LoadEvent result => onload file result
  | ErrorEvent => onerror file
  end.

(** The specification's wording of the names a sheet yields: "the trimmed,
    non-empty values of the [variable_name] column of the respective
    sheet, in row order, with row order preserved and blank values
    dropped".  [cellText row] is the text of the cell of that column in
    [row]; a row without the column has no text. *)
Definition cellText (row : Row) : string :=
  match row !! "variable_name" with
  | Some (Str s) => s
  | Some (Number n) => numberToString n
  | Some (Boolean b) => if b then "true" else "false"
  | Some Null | Some Undefined | None => ""
  end.

Fixpoint trimmedNonBlank (rows : list Row) : list string :=
  match rows with
  | [] => []
  | row :: rest =>
      let v := trim (cellText row) in
      if bool_decide (v = "") then trimmedNonBlank rest
      else v :: trimmedNonBlank rest
  end.

End WithXLSX.

Arguments SheetNames {WorkSheet} _.
Arguments Sheets {WorkSheet} _.
Arguments mkWorkBook {WorkSheet} _ _.

(** The message for missing sheets as section 6 of the specification
    words it, with the literal "sheet(s)". *)
Definition specMissingMessage (missing found : list string) : string :=
  "Required sheet(s) not found: " +:+ join " and " missing
    +:+ ". Sheets in this file: "
    +:+ match found with
        | [] => "(no sheets found)"
        | _ :: _ => join ", " found
        end
    +:+ ".".

(** A small instance of the library for examples: numbers are integers, a
    sheet is the list of its rows, reading fails on an empty file and
    yields a given workbook otherwise. *)
Definition rowsOf (ws : option (list (gmap string (Value Z))))
    : M (list (gmap string (Value Z))) :=
  match ws with
  | Some rows => ret rows
  | None => throw (ThrownError {| message := "Sheet is undefined" |})
  end.

Definition readAs (wb : WorkBook (list (gmap string (Value Z))))
    (bytes : list Byte.byte) : M (WorkBook (list (gmap string (Value Z)))) :=
  match bytes with
  | [] => throw (ThrownError {| message := "File is empty" |})
  | _ :: _ => ret wb
  end.

(** A reader that does what the library does on a truncated [.xls]
    file: it throws a bare string. *)
Definition readTruncated (bytes : list Byte.byte)
    : M (WorkBook (list (gmap string (Value Z)))) :=
  throw (ThrownString "XLS Record 0x9 Truncated: 0 < 4").

Definition namedRow (v : Value Z) : gmap string (Value Z) :=
  {[ "variable_name" := v ]}.

Definition otherRow (v : Value Z) : gmap string (Value Z) :=
  {[ "name" := v ]}.

Definition wbInputsOnly : WorkBook (list (gmap string (Value Z))) :=
  {| SheetNames := ["INPUTS"];
     Sheets := {[ "INPUTS" := [namedRow (Str "tax_rate")] ]} |}.

Definition wbNoSheets : WorkBook (list (gmap string (Value Z))) :=
  {| SheetNames := []; Sheets := ∅ |}.

Definition wbBoth : WorkBook (list (gmap string (Value Z))) :=
  {| SheetNames := ["Notes"; "INPUTS"; "OUTPUTS"];
     Sheets :=
       {[ "Notes" := [];
          "INPUTS" := [namedRow (Str "  tax_rate "); namedRow (Str "   ");
                       namedRow (Str "tax_rate"); namedRow (Number 42%Z);
                       namedRow (Str "")];
          "OUTPUTS" := [otherRow (Str "ebitda"); otherRow (Str "cogs")] ]} |}.

(** A workbook that lists a sheet its table does not hold. *)
Definition wbBroken : WorkBook (list (gmap string (Value Z))) :=
  {| SheetNames := ["INPUTS"; "OUTPUTS"];
     Sheets := {[ "INPUTS" := [namedRow (Str "tax_rate")] ]} |}.

Definition someBytes : list Byte.byte := [Byte.x50; Byte.x4b].

Definition parseToy (wb : WorkBook (list (gmap string (Value Z))))
    : File → ReaderEvent → Promise ParseResult :=
  parseExcelFile Z pretty (list (gmap string (Value Z))) (readAs wb) rowsOf.

End ParseExcel.

(* ===================================================================== *)
(** ** nodes/ModelNode.jsx *)
(* ===================================================================== *)

Module ModelNode.

Import Js.

(** [data] of a node: [label], [order], [inputs], [outputs], [error].
    [None] stands for [null] (or an absent key, which the component
    treats alike). *)
Record NodeData := mkNodeData {
  label : string;
  order : option Z;
  inputs : list string;
  outputs : list string;
  error : option string
}.

Record Position := mkPosition { x : Z; y : Z }.

(** A node of the canvas, as kept by [useNodesState]. *)
Record Node := mkNode {
  id : string;
  type : string;
  position : Position;
  data : NodeData
}.

(** The object handed to [patchData]: a key that is not written is [None];
    [u_error := Some None] writes [error: null]. *)
Record Updates := mkUpdates {
  u_label : option string;
  u_inputs : option (list string);
  u_outputs : option (list string);
  u_error : option (option string)
}.

(** [{ ...d, ...updates }] *)
Definition spread (d : NodeData) (updates : Updates) : NodeData :=
  {| label := default (label d) (u_label updates);
     order := order d;
     inputs := default (inputs d) (u_inputs updates);
     outputs := default (outputs d) (u_outputs updates);
     error := default (error d) (u_error updates) |}.

(** [nds.map(n => n.id === id ? { ...n, data: { ...n.data, ...updates } } : n)],
    the updater [patchData] hands to [setNodes]. *)
Definition patchData (id' : string) (updates : Updates) (nds : list Node)
    : list Node :=
  List.map
    (fun n =>
       if bool_decide (id n = id')
       then {| id := id n; type := type n; position := position n;
               data := spread (data n) updates |}
       else n)
    nds.

(** [/\.(xlsx|xls)$/i.test(name)] *)
Definition isExcelName (name : string) : bool :=
  let l := lower name in
  endsWith l ".xlsx" || endsWith l ".xls".

Section WithXLSX.

Variable number : Type.
Variable numberToString : number → string.
Variable WorkSheet : Type.
Variable XLSX_read : list Byte.byte → M (ParseExcel.WorkBook WorkSheet).
Variable sheet_to_json :
  option WorkSheet → M (list (gmap string (Value number))).

(** [onDrop] of the node [id']: [files] is [e.dataTransfer.files ?? []],
    [ev] the event the file reader fires for the chosen file, and [nds]
    the node list the updater of [setNodes] runs on, that is the list at
    the time the result arrives.  When the awaited promise does not
    resolve, the code after [await] does not run. *)
Definition onDrop (id' : string) (files : list ParseExcel.File)
    (ev : ParseExcel.ReaderEvent) (nds : list Node) : list Node :=
  match find (fun f => isExcelName (ParseExcel.name f)) files with
  | None =>
      patchData id'
        {| u_label := None; u_inputs := None; u_outputs := None;
           u_error := Some (Some "Only .xlsx / .xls files are accepted.") |}
        nds
  | Some file =>
      match ParseExcel.parseExcelFile number numberToString WorkSheet
              XLSX_read sheet_to_json file ev with
      | Resolved result =>
          patchData id'
            {| u_label := Some (ParseExcel.filename result);
               u_inputs := Some (ParseExcel.inputs result);
               u_outputs := Some (ParseExcel.outputs result);
               u_error := Some (ParseExcel.error result) |}
            nds
      | Pending | Rejected _ => nds
      end
  end.

End WithXLSX.

(** The dismiss button of the error banner: [patchData({ error: null })]. *)
Definition dismissError (id' : string) (nds : list Node) : list Node :=
  patchData id'
    {| u_label := None; u_inputs := None; u_outputs := None;
       u_error := Some None |}
    nds.

(** The [<Handle>] elements a node renders. *)
Inductive HandleType := target | source.

Record Handle := mkHandle { h_type : HandleType; h_id : string }.

(** [inputs.map(name => <Handle type="target" id={`in-${name}`} />)] *)
Definition inputHandles (d : NodeData) : list Handle :=
  List.map (fun name => {| h_type := target; h_id := "in-" +:+ name |})
    (inputs d).

(** [outputs.map(name => <Handle type="source" id={`out-${name}`} />)] *)
Definition outputHandles (d : NodeData) : list Handle :=
  List.map (fun name => {| h_type := source; h_id := "out-" +:+ name |})
    (outputs d).

(** The end of a connection is named by the id of the node and the id of
    the handle, as in the [source]/[sourceHandle] and
    [target]/[targetHandle] fields of an edge. *)
Definition inputEndpoints (n : Node) : list (string * string) :=
  List.map (fun h => (id n, h_id h)) (inputHandles (data n)).

Definition outputEndpoints (n : Node) : list (string * string) :=
  List.map (fun h => (id n, h_id h)) (outputHandles (data n)).

(** Example nodes: a node whose ports were loaded from a file, and a node
    whose sheet declares the input [x] in two rows. *)
Definition loadedNode : Node :=
  {| id := "node-1"; type := "modelNode";
     position := {| x := 80; y := 120 |};
     data := {| label := "Revenue Model.xlsx"; order := Some 1%Z;
                inputs := ["tax_rate"; "discount_rate"];
                outputs := ["gross_revenue"; "net_revenue"; "ebitda"];
                error := None |} |}.

Definition otherNode : Node :=
  {| id := "node-3"; type := "modelNode";
     position := {| x := 520; y := 340 |};
     data := {| label := "Headcount Model.xlsx"; order := None;
                inputs := []; outputs := ["headcount"];
                error := None |} |}.

Definition duplicateNode : Node :=
  {| id := "node-4"; type := "modelNode";
     position := {| x := 0; y := 0 |};
     data := {| label := "Twice.xlsx"; order := None;
                inputs := ["x"; "x"]; outputs := ["y"; "z"; "y"];
                error := None |} |}.

(** [loadedNode] after a file that cannot be parsed was dropped on it. *)
Definition clearedNode : Node :=
  {| id := "node-1"; type := "modelNode";
     position := {| x := 80; y := 120 |};
     data := {| label := "broken.xlsx"; order := Some 1%Z;
                inputs := []; outputs := [];
                error := Some "Could not parse file: File is empty" |} |}.

(** [onDrop] with the example instance of the library. *)
Definition dropToy
    (wb : ParseExcel.WorkBook (list (gmap string (Value Z))))
    : string → list ParseExcel.File → ParseExcel.ReaderEvent →
      list Node → list Node :=
  onDrop Z pretty (list (gmap string (Value Z)))
    (ParseExcel.readAs wb) ParseExcel.rowsOf.

(** The drag state of the component: [dragDepth.current] (a ref, initially
    0) and [isDragOver] (initially false).  [dragenter] and [dragleave]
    bubble from child elements, so the depth counts how many elements the
    cursor is inside of. *)
Record DragState := mkDragState { dragDepth : Z; isDragOver : bool }.

Definition initialDragState : DragState :=
  {| dragDepth := 0; isDragOver := false |}.

(** [dragDepth.current += 1; if (dragDepth.current === 1) setIsDragOver(true)] *)
Definition onDragEnter (st : DragState) : DragState :=
  let depth := (dragDepth st + 1)%Z in
  {| dragDepth := depth;
     isDragOver := if (depth =? 1)%Z then true else isDragOver st |}.

(** [dragDepth.current -= 1; if (dragDepth.current === 0) setIsDragOver(false)] *)
Definition onDragLeave (st : DragState) : DragState :=
  let depth := (dragDepth st - 1)%Z in
  {| dragDepth := depth;
     isDragOver := if (depth =? 0)%Z then false else isDragOver st |}.

(** [onDragOver] only sets the drop effect of the event. *)
Definition onDragOver (st : DragState) : DragState := st.

(** The first statements of [onDrop]:
    [dragDepth.current = 0; setIsDragOver(false)]. *)
Definition onDropReset (st : DragState) : DragState :=
  {| dragDepth := 0; isDragOver := false |}.

Inductive DragEvent := DragEnter | DragLeave | DragOver | Drop.

Definition handleDrag (st : DragState) (ev : DragEvent) : DragState :=
  match ev with
  | DragEnter => onDragEnter st
  | DragLeave => onDragLeave st
  | DragOver => onDragOver st
  | Drop => onDropReset st
  end.

(** The drag state after the events [evs], in order. *)
Definition handleDrags (st : DragState) (evs : list DragEvent) : DragState :=
  fold_left handleDrag evs st.

Definition isEnter (ev : DragEvent) : bool :=
  match ev with DragEnter => true | _ => false end.

Definition isLeave (ev : DragEvent) : bool :=
  match ev with DragLeave => true | _ => false end.

Definition isDrop (ev : DragEvent) : bool :=
  match ev with Drop => true | _ => false end.

(** The derived display flags.  [error] as a condition: [null] and the
    empty string are falsy. *)
Definition errorTruthy (d : NodeData) : bool :=
  match error d with
  | Some msg => truthy msg
  | None => false
  end.

(** [inputs.length > 0 || outputs.length > 0] *)
Definition hasPorts (d : NodeData) : bool :=
  (0 <? length (inputs d)) || (0 <? length (outputs d)).

(** [!hasPorts && !error && !isLoading] *)
Definition showDropHint (d : NodeData) (isLoading : bool) : bool :=
  negb (hasPorts d) && negb (errorTruthy d) && negb isLoading.

(** The condition of the error banner and of the red header,
    [error && !isLoading]. *)
Definition showErrorBanner (d : NodeData) (isLoading : bool) : bool :=
  errorTruthy d && negb isLoading.

End ModelNode.

(* ===================================================================== *)
(** ** App.jsx *)
(* ===================================================================== *)

Module App.

Import Js.

(** The [Connection] the canvas passes to [onConnect]. *)
Record Connection := mkConnection {
  c_source : string;
  c_sourceHandle : option string;
  c_target : string;
  c_targetHandle : option string
}.

(** An edge of the canvas, as kept by [useEdgesState]; [stroke] is
    [style.stroke]. *)
Record Edge := mkEdge {
  id : string;
  source : string;
  sourceHandle : option string;
  target : string;
  targetHandle : option string;
  animated : bool;
  stroke : string
}.

(** [{ ...params, animated, style: { stroke } }], an edge that has no id
    yet. *)
Record EdgeParams := mkEdgeParams {
  p_connection : Connection;
  p_animated : bool;
  p_stroke : string
}.

Definition SAMPLE_NODES : list ModelNode.Node :=
  [ {| ModelNode.id := "node-1"; ModelNode.type := "modelNode";
       ModelNode.position := {| ModelNode.x := 80; ModelNode.y := 120 |};
       ModelNode.data :=
         {| ModelNode.label := "Revenue Model.xlsx";
            ModelNode.order := Some 1%Z;
            ModelNode.inputs := ["tax_rate"; "discount_rate"];
            ModelNode.outputs := ["gross_revenue"; "net_revenue"; "ebitda"];
            ModelNode.error := None |} |};
    {| ModelNode.id := "node-2"; ModelNode.type := "modelNode";
       ModelNode.position := {| ModelNode.x := 520; ModelNode.y := 80 |};
       ModelNode.data :=
         {| ModelNode.label := "Cost Model.xlsx";
            ModelNode.order := Some 2%Z;
            ModelNode.inputs := ["gross_revenue"; "headcount"];
            ModelNode.outputs := ["cogs"; "opex"; "gross_profit"];
            ModelNode.error := None |} |};
    {| ModelNode.id := "node-3"; ModelNode.type := "modelNode";
       ModelNode.position := {| ModelNode.x := 520; ModelNode.y := 340 |};
       ModelNode.data :=
         {| ModelNode.label := "Headcount Model.xlsx";
            ModelNode.order := None;
            ModelNode.inputs := [];
            ModelNode.outputs := ["headcount"];
            ModelNode.error := None |} |} ].

Definition SAMPLE_EDGES : list Edge :=
  [ {| id := "e1-2-revenue";
       source := "node-1"; sourceHandle := Some "out-gross_revenue";
       target := "node-2"; targetHandle := Some "in-gross_revenue";
       animated := true; stroke := "#6366f1" |};
    {| id := "e3-2-headcount";
       source := "node-3"; sourceHandle := Some "out-headcount";
       target := "node-2"; targetHandle := Some "in-headcount";
       animated := true; stroke := "#10b981" |} ].

Section WithAddEdge.

(** The function [App.jsx] imports as [addEdge] from the canvas
    library. *)
Variable addEdge : EdgeParams → list Edge → list Edge.

(** [onConnect]: the updater handed to [setEdges],
    [eds => addEdge({ ...params, animated: true, style: { stroke: '#6366f1' } }, eds)]. *)
Definition onConnect (params : Connection) (eds : list Edge) : list Edge :=
  addEdge
    {| p_connection := params; p_animated := true; p_stroke := "#6366f1" |}
    eds.

End WithAddEdge.

(** The canvas library [@xyflow/react] is not part of the repository.
    [addEdge] below and its helpers [getEdgeId] and [connectionExists]
    follow the library's functions of these names.  A handle that is
    [null] or absent is [None]. *)

(** [!h] for a handle [h]: [null], an absent handle and the empty string
    are falsy. *)
Definition falsyHandle (h : option string) : bool :=
  match h with
  | None => true
  | Some s => negb (truthy s)
  end.

(** [a === b || (!a && !b)]: two handles name the same end when they are
    equal or both falsy. *)
Definition sameHandle (a b : option string) : bool :=
  bool_decide (a = b) || (falsyHandle a && falsyHandle b).

(** The test of [connectionExists] on one edge [el]:
    [el.source === edge.source && el.target === edge.target &&
     (el.sourceHandle === edge.sourceHandle || (!el.sourceHandle && !edge.sourceHandle)) &&
     (el.targetHandle === edge.targetHandle || (!el.targetHandle && !edge.targetHandle))]. *)
Definition sameConnection (e : Edge) (c : Connection) : bool :=
  bool_decide (source e = c_source c)
  && bool_decide (target e = c_target c)
  && sameHandle (sourceHandle e) (c_sourceHandle c)
  && sameHandle (targetHandle e) (c_targetHandle c).

(** [edges.some(el => ...)] *)
Definition connectionExists (c : Connection) (eds : list Edge) : bool :=
  existsb (fun e => sameConnection e c) eds.

(** [`xy-edge__${source}${sourceHandle || ''}-${target}${targetHandle || ''}`] *)
Definition getEdgeId (c : Connection) : string :=
  "xy-edge__" +:+ c_source c +:+ default "" (c_sourceHandle c)
    +:+ "-" +:+ c_target c +:+ default "" (c_targetHandle c).

(** [addEdge(edgeParams, edges)] for parameters without an id, as
    [onConnect] passes them: the edges are returned as they are when the
    source or the target is falsy and when the connection exists;
    otherwise the edge, named by [getEdgeId], is appended. *)
Definition addEdge (p : EdgeParams) (eds : list Edge) : list Edge :=
  let c := p_connection p in
  if negb (truthy (c_source c)) || negb (truthy (c_target c)) then eds
  else if connectionExists c eds then eds
  else eds ++ [ {| id := getEdgeId c;
                   source := c_source c; sourceHandle := c_sourceHandle c;
                   target := c_target c; targetHandle := c_targetHandle c;
                   animated := p_animated p; stroke := p_stroke p |} ].

(** Edges whose handles are absent or empty, for examples: the library
    takes [null], an absent handle and the empty string for one end. *)
Definition bareEdge : Edge :=
  {| id := "e-bare"; source := "node-1"; sourceHandle := None;
     target := "node-2"; targetHandle := Some "";
     animated := false; stroke := "#000000" |}.

Definition bareConnection : Connection :=
  {| c_source := "node-1"; c_sourceHandle := Some "";
     c_target := "node-2"; c_targetHandle := None |}.

(** The connection that wires output [v1] of node [s] to input [v2] of
    node [t], through the handles [ModelNode] renders for them. *)
Definition wire (s v1 t v2 : string) : Connection :=
  {| c_source := s; c_sourceHandle := Some ("out-" +:+ v1);
     c_target := t; c_targetHandle := Some ("in-" +:+ v2) |}.

End App.

(* ===================================================================== *)
(** ** The order engine *)
(* ===================================================================== *)

Module OrderEngine.

(** The sources keep nodes and edges in the state of the canvas and hold
    no order engine: neither the graph of section 3 of the specification
    nor [computeRanks] of section 4.3 is implemented.  This module models
    both from the specification. *)

(** Modelled from the spec: the direction of a port reference (section 3);
    the sources have no port references. *)
Inductive Direction := Input | Output.

(** Modelled from the spec: a port reference
    [(nodeId, direction, variableName)] (section 3). *)
Record PortRef := mkPortRef {
  nodeId : string;
  direction : Direction;
  variableName : string
}.

(** Modelled from the spec: a node of the graph (section 3), without the
    derived [rank]. *)
Record Node := mkNode {
  id : string;
  label : string;
  inputs : list string;
  outputs : list string;
  loadError : option string
}.

(** Modelled from the spec: an edge of the graph (section 3), from an
    output port to an input port. *)
Record Edge := mkEdge {
  edgeId : string;
  source : PortRef;
  target : PortRef
}.

(** Modelled from the spec: the graph, "the set of all Nodes and Edges"
    (section 3). *)
Record Graph := mkGraph {
  nodes : list Node;
  edges : list Edge
}.

(** Modelled from the spec: why a node is unorderable (section 4.3). *)
Inductive Reason := DegradedInput | Cyclic.

(** Modelled from the spec: [RankResult] (section 4.3), [Ranked n] or
    [Unorderable] with its reason. *)
Inductive RankResult :=
| Ranked (n : nat)
| Unorderable (r : Reason).

(** Modelled from the spec: the node an edge leaves, [source.nodeId]. *)
Definition src (e : Edge) : string := nodeId (source e).

(** Modelled from the spec: the node an edge enters, [target.nodeId]. *)
Definition tgt (e : Edge) : string := nodeId (target e).

(** Modelled from the spec: step 1 of [computeRanks], the nodes with a
    non-null [loadError]. *)
Definition errorNodes (g : Graph) : list string :=
  id <$> List.filter (fun n => bool_decide (is_Some (loadError n))) (nodes g).

(** Modelled from the spec: step 1 of [computeRanks], the nodes that
    depend, via one edge, on a node of [D]. *)
Definition dependentsOf (E : list Edge) (D : list string) : list string :=
  tgt <$> List.filter (fun e => bool_decide (src e ∈ D)) E.

(** Modelled from the spec: step 1 of [computeRanks], "every node that
    (transitively, via edges) depends on them": [fuel] rounds of
    [dependentsOf]. *)
Fixpoint propagate (fuel : nat) (E : list Edge) (D : list string)
    : list string :=
  match fuel with
  | 0 => D
  | S fuel' => propagate fuel' E (D ++ dependentsOf E D)
  end.

(** Modelled from the spec: step 1 of [computeRanks], the nodes marked
    [Unorderable DegradedInput].  A dependency chain without repetition
    has at most as many edges as the graph, which bounds the rounds. *)
Definition degraded (g : Graph) : list string :=
  propagate (length (edges g)) (edges g) (errorNodes g).

(** Modelled from the spec: step 2 of [computeRanks], the remaining
    nodes. *)
Definition remaining (g : Graph) : list string :=
  List.filter (fun n => negb (bool_decide (n ∈ degraded g))) (id <$> nodes g).

(** Modelled from the spec: step 2 of [computeRanks], the "edges among
    remaining nodes". *)
Definition edgesAmong (R : list string) (E : list Edge) : list Edge :=
  List.filter (fun e => bool_decide (src e ∈ R) && bool_decide (tgt e ∈ R)) E.

(** Modelled from the spec: step 2 of [computeRanks], the in-degree of a
    node. *)
Definition inDegree (E : list Edge) (n : string) : nat :=
  length (List.filter (fun e => bool_decide (tgt e = n)) E).

(** Modelled from the spec: step 4 of [computeRanks], taking one off the
    working in-degree count of [n]. *)
Definition decrement (d : string → nat) (n : string) : string → nat :=
  fun m => if bool_decide (m = n) then pred (d m) else d m.

(** Modelled from the spec: step 4 of [computeRanks], "remove layer-k
    nodes and their outgoing edges from the working in-degree counts":
    every edge that leaves the layer takes one off the count of its
    target. *)
Definition removeOutgoing (E : list Edge) (L : list string)
    (d : string → nat) : string → nat :=
  fold_left
    (fun d e => if bool_decide (src e ∈ L) then decrement d (tgt e) else d)
    E d.

(** Modelled from the spec: step 4 of [computeRanks], "any node whose
    in-degree drops to 0 becomes layer k+1"; [d] are the counts before
    the layer was removed and [d'] the counts after. *)
Definition nextLayer (R : list string) (d d' : string → nat) : list string :=
  List.filter (fun n => negb (Nat.eqb (d n) 0) && Nat.eqb (d' n) 0) R.

(** Modelled from the spec: steps 3 and 4 of [computeRanks], the layers
    from layer [L] on; the iteration "continues until no new layer
    forms". *)
Fixpoint layers (fuel : nat) (R : list string) (E : list Edge)
    (d : string → nat) (L : list string) : list (list string) :=
  match fuel with
  | 0 => [L]
  | S fuel' =>
      let d' := removeOutgoing E L d in
      let L' := nextLayer R d d' in
      match L' with
      | [] => [L]
      | _ :: _ => L :: layers fuel' R E d' L'
      end
  end.

(** Modelled from the spec: steps 2 to 4 of [computeRanks]: layer 0 is
    made of the remaining nodes with in-degree 0.  There are at most as
    many non-empty layers as nodes, which bounds the iteration. *)
Definition kahn (R : list string) (E : list Edge) : list (list string) :=
  let d := inDegree E in
  layers (length R) R E d (List.filter (fun n => Nat.eqb (d n) 0) R).

(** Modelled from the spec: steps 3 and 4 of [computeRanks], "assign rank
    k" to the nodes of layer k: the rank is the number of the layer. *)
Fixpoint layerIndex (ls : list (list string)) (n : string) : option nat :=
  match ls with
  | [] => None
  | L :: ls' =>
      if bool_decide (n ∈ L) then Some 0 else S <$> layerIndex ls' n
  end.

(** Modelled from the spec: the [RankResult] of one node.  Degraded nodes
    and their dependents are [Unorderable DegradedInput]; the remaining
    nodes are ranked by layer; what is left over (step 5) is
    [Unorderable Cyclic]. *)
Definition rankOf (g : Graph) (n : string) : RankResult :=
  if bool_decide (n ∈ degraded g) then Unorderable DegradedInput
  else
    let R := remaining g in
    match layerIndex (kahn R (edgesAmong R (edges g))) n with
    | Some k => Ranked k
    | None => Unorderable Cyclic
    end.

(** Modelled from the spec: [computeRanks(graph)] of section 4.3, the
    "mapping from nodeId to RankResult"; the function is absent from the
    sources. *)
Definition computeRanks (g : Graph) : gmap string RankResult :=
  list_to_map ((fun n => (id n, rankOf g (id n))) <$> nodes g).

(** There is an edge from [a] to [b]. *)
Definition linked (E : list Edge) (a b : string) : Prop :=
  ∃ e, e ∈ E ∧ src e = a ∧ tgt e = b.

Definition edgeRel (g : Graph) : relation string := linked (edges g).

(** No node reaches itself along one or more edges. *)
Definition acyclic (g : Graph) : Prop :=
  ∀ n, ¬ tc (edgeRel g) n n.

(** [f] orders the nodes that [computeRanks] ranks: along every edge
    between two ranked nodes it increases. *)
Definition respectsEdges (g : Graph) (f : string → nat) : Prop :=
  ∀ e a b,
    e ∈ edges g →
    computeRanks g !! src e = Some (Ranked a) →
    computeRanks g !! tgt e = Some (Ranked b) →
    f (src e) < f (tgt e).

(** The number of edges into [n] whose source is not among the processed
    nodes [P]: what the working in-degree of [n] stands for. *)
Definition pendingIn (E : list Edge) (P : list string) (n : string) : nat :=
  length
    (List.filter
       (fun e => bool_decide (tgt e = n) && negb (bool_decide (src e ∈ P)))
       E).

(** The number of edges into [n] that leave the layer [L]. *)
Definition fromLayer (E : list Edge) (L : list string) (n : string) : nat :=
  length
    (List.filter
       (fun e => bool_decide (src e ∈ L) && bool_decide (tgt e = n))
       E).

(** The state of the iteration when layer [L] is about to be removed,
    [P] being the nodes of the layers before it: the counts are the
    pending in-degrees, the layer is made of unprocessed nodes, and a
    node has count 0 exactly when it is processed or in the layer. *)
Definition layersInv (R : list string) (E : list Edge) (P : list string)
    (d : string → nat) (L : list string) : Prop :=
  (∀ n, d n = pendingIn E P n)
  ∧ (∀ n, n ∈ L → n ∈ R ∧ n ∉ P)
  ∧ (∀ n, n ∈ R → d n = 0 ↔ n ∈ P ∨ n ∈ L).

(** The scenarios of the specification: A(outputs x), B(inputs x,
    outputs y), the edge A.x to B.x, and the edge B.y to A.x on top of
    it. *)
Definition nodeA : Node :=
  {| id := "A"; label := "A"; inputs := ["x"]; outputs := ["x"];
     loadError := None |}.
Definition nodeB : Node :=
  {| id := "B"; label := "B"; inputs := ["x"]; outputs := ["y"];
     loadError := None |}.
Definition edgeAB : Edge :=
  {| edgeId := "e1";
     source := {| nodeId := "A"; direction := Output; variableName := "x" |};
     target := {| nodeId := "B"; direction := Input; variableName := "x" |} |}.
Definition edgeBA : Edge :=
  {| edgeId := "e2";
     source := {| nodeId := "B"; direction := Output; variableName := "y" |};
     target := {| nodeId := "A"; direction := Input; variableName := "x" |} |}.

Definition chainAB : Graph := {| nodes := [nodeA; nodeB]; edges := [edgeAB] |}.
Definition cycleAB : Graph :=
  {| nodes := [nodeA; nodeB]; edges := [edgeAB; edgeBA] |}.

End OrderEngine.

(* ===================================================================== *)
(** * Properties of spreadsheet ingestion *)
(* ===================================================================== *)

Module ParseExcelProps.

Import Js ParseExcel.

Section WithXLSX.

Variable number : Type.
Variable numberToString : number → string.
Variable WorkSheet : Type.
Variable XLSX_read : list Byte.byte → M (WorkBook WorkSheet).
Variable sheet_to_json :
  option WorkSheet → M (list (gmap string (Value number))).

Local Abbreviation parse :=
  (parseExcelFile number numberToString WorkSheet XLSX_read sheet_to_json).
Local Abbreviation tryBlock :=
  (onloadTry number numberToString WorkSheet XLSX_read sheet_to_json).
Local Abbreviation names := (variableNamesOfRows number numberToString).
Local Abbreviation specNames := (trimmedNonBlank number numberToString).

Lemma missingSheets_cases (found : list string) :
  missingSheets found =
    (if bool_decide ("INPUTS" ∈ found) then [] else ["INPUTS"])
    ++ (if bool_decide ("OUTPUTS" ∈ found) then [] else ["OUTPUTS"]).
Proof.
  unfold missingSheets, REQUIRED_SHEETS, includes. simpl.
  do 2 case_bool_decide; reflexivity.
Qed.

Lemma missingSheets_nil (found : list string) :
  "INPUTS" ∈ found → "OUTPUTS" ∈ found → missingSheets found = [].
Proof.
  intros Hi Ho. rewrite missingSheets_cases.
  rewrite !bool_decide_eq_true_2 by assumption. reflexivity.
Qed.

(** With both sheets listed, the [try] block is the four reads of the two
    sheets followed by the result. *)
Lemma onloadTry_both file bytes wb :
  XLSX_read bytes = inr wb →
  "INPUTS" ∈ SheetNames wb → "OUTPUTS" ∈ SheetNames wb →
  tryBlock file bytes =
    (let* rawInputs := sheet_to_json (Sheets wb !! "INPUTS") in
     let* rawOutputs := sheet_to_json (Sheets wb !! "OUTPUTS") in
     let* ins := sheet_to_json (Sheets wb !! "INPUTS") in
     let* outs := sheet_to_json (Sheets wb !! "OUTPUTS") in
     ret {| filename := name file;
            inputs := names ins;
            outputs := names outs;
            error := None |}).
Proof.
  intros Hread Hi Ho. unfold onloadTry. rewrite Hread. simpl.
  rewrite (missingSheets_nil _ Hi Ho). simpl.
  unfold readVariableNames.
  destruct (sheet_to_json (Sheets wb !! "INPUTS")) as [e|ri]; simpl; [done|].
  destruct (sheet_to_json (Sheets wb !! "OUTPUTS")) as [e|ro]; simpl; done.
Qed.

(** The code's map-then-filter and the specification's wording agree. *)
Lemma variableNamesOfRows_spec rows : names rows = specNames rows.
Proof.
  unfold variableNamesOfRows.
  induction rows as [|row rows IH]; simpl; [reflexivity|].
  assert (Hcell :
    toString numberToString (nullish (get row "variable_name") (Str ""))
    = cellText number numberToString row).
  { unfold get, cellText.
    destruct (row !! "variable_name") as [[| |[]| |]|]; reflexivity. }
  rewrite Hcell, IH.
  destruct (trim (cellText number numberToString row)) eqn:Ht; simpl;
    try case_bool_decide; done.
Qed.

Lemma specNames_no_column rows :
  (∀ row, row ∈ rows → row !! "variable_name" = None) →
  specNames rows = [].
Proof.
  induction rows as [|row rows IH]; intros Hall; simpl; [reflexivity|].
  unfold cellText. rewrite (Hall row) by left. simpl.
  apply IH. intros r Hr. apply Hall. by right.
Qed.

(** C3: whatever the file and whatever the reader and the library do,
    [parseExcelFile] resolves: its promise is never left pending and never
    rejected, and the value has the four fields [filename] (the name of
    the file), [inputs] and [outputs] (arrays of strings) and [error]
    (a string or null). *)
Theorem parseExcelFile_always_resolves (file : File) (ev : ReaderEvent) :
  ∃ r : ParseResult,
    parse file ev = Resolved r
    ∧ filename r = name file
    ∧ parse file ev ≠ Pending
    ∧ ∀ e, parse file ev ≠ Rejected e.
Proof.
  destruct ev as [bytes|]; simpl.
  - unfold onload, tryCatch.
    destruct (tryBlock file bytes) as [err|r] eqn:Htry.
    + eexists; repeat split; try done.
    + exists r. repeat split; try done.
      unfold onloadTry in Htry.
      destruct (XLSX_read bytes) as [e|wb]; simpl in Htry; [done|].
      destruct (0 <? length (missingSheets (SheetNames wb))).
      * by inversion Htry.
      * unfold readVariableNames in Htry.
        destruct (sheet_to_json (Sheets wb !! "INPUTS")); simpl in Htry; [done|].
        destruct (sheet_to_json (Sheets wb !! "OUTPUTS")); simpl in Htry; [done|].
        by inversion Htry.
  - unfold onerror. eexists; repeat split; done.
Qed.

(** C1, amended: when the workbook is read and a required sheet is not
    listed, the promise resolves with empty [inputs] and [outputs] and
    the message "Required sheet not found: X. ..." when one sheet X is
    missing, "Required sheets not found: INPUTS and OUTPUTS. ..." when
    both are; the sheets present follow, joined by ", ", or
    "(no sheets found)". *)
Theorem missing_sheets_message (file : File) (bytes : list Byte.byte)
    (wb : WorkBook WorkSheet) :
  XLSX_read bytes = inr wb →
  let found := SheetNames wb in
  let failed msg :=
    Resolved {| filename := name file; inputs := []; outputs := [];
                error := Some msg |} in
  ("INPUTS" ∈ found → "OUTPUTS" ∉ found →
     parse file (LoadEvent bytes) =
       failed ("Required sheet not found: OUTPUTS. Sheets in this file: "
                 +:+ join ", " found +:+ "."))
  ∧ ("INPUTS" ∉ found → "OUTPUTS" ∈ found →
     parse file (LoadEvent bytes) =
       failed ("Required sheet not found: INPUTS. Sheets in this file: "
                 +:+ join ", " found +:+ "."))
  ∧ ("INPUTS" ∉ found → "OUTPUTS" ∉ found →
     parse file (LoadEvent bytes) =
       failed ("Required sheets not found: INPUTS and OUTPUTS. Sheets in this file: "
                 +:+ match found with
                     | [] => "(no sheets found)"
                     | _ :: _ => join ", " found
                     end +:+ ".")).
Proof.
  intros Hread found failed.
  assert (Hparse : parse file (LoadEvent bytes) =
    if 0 <? length (missingSheets found)
    then failed (missingMessage (missingSheets found) found)
    else Resolved (tryCatch (tryBlock file bytes)
           (fun err => {| filename := name file; inputs := []; outputs := [];
                          error := Some ("Could not parse file: " +:+ messageText err) |}))).
  { simpl. unfold onload, onloadTry. rewrite Hread. simpl.
    fold found. destruct (0 <? length (missingSheets found)); reflexivity. }
  rewrite Hparse, missingSheets_cases. clear Hparse.
  repeat split; intros Hi Ho.
  - rewrite bool_decide_eq_true_2, bool_decide_eq_false_2 by assumption.
    destruct found; [by apply elem_of_nil in Hi|]. reflexivity.
  - rewrite bool_decide_eq_false_2, bool_decide_eq_true_2 by assumption.
    destruct found; [by apply elem_of_nil in Ho|]. reflexivity.
  - rewrite !bool_decide_eq_false_2 by assumption.
    destruct found; reflexivity.
Qed.

(** C4: when the workbook is read, lists both sheets, and the library
    yields the rows of each, [inputs] (resp. [outputs]) is the sequence of
    the trimmed values of the [variable_name] column of the rows of
    INPUTS (resp. OUTPUTS), in row order, without the values that are
    blank after trimming and with repeated values kept; [error] is
    null. *)
Theorem parseExcelFile_variable_names (file : File) (bytes : list Byte.byte)
    (wb : WorkBook WorkSheet) (rowsI rowsO : list (gmap string (Value number))) :
  XLSX_read bytes = inr wb →
  "INPUTS" ∈ SheetNames wb →
  "OUTPUTS" ∈ SheetNames wb →
  sheet_to_json (Sheets wb !! "INPUTS") = inr rowsI →
  sheet_to_json (Sheets wb !! "OUTPUTS") = inr rowsO →
  parse file (LoadEvent bytes) =
    Resolved {| filename := name file;
                inputs := specNames rowsI;
                outputs := specNames rowsO;
                error := None |}.
Proof.
  intros Hread Hi Ho HrI HrO. simpl. unfold onload.
  rewrite (onloadTry_both file bytes wb Hread Hi Ho), HrI, HrO. simpl.
  by rewrite !variableNamesOfRows_spec.
Qed.

(** What the two failure paths report, with empty [inputs] and
    [outputs]: "Failed to read the file from disk." when the reader
    fires [error]; "Could not parse file: " followed by the text of
    [err.message] when reading the workbook throws [err] and when
    reading the rows of a sheet throws [err]. *)
Lemma failure_messages (file : File) :
  let failed msg :=
    Resolved {| filename := name file; inputs := []; outputs := [];
                error := Some msg |} in
  parse file ErrorEvent = failed "Failed to read the file from disk."
  ∧ (∀ bytes err,
       XLSX_read bytes = inl err →
       parse file (LoadEvent bytes) =
         failed ("Could not parse file: " +:+ messageText err))
  ∧ (∀ bytes wb err,
       XLSX_read bytes = inr wb →
       "INPUTS" ∈ SheetNames wb → "OUTPUTS" ∈ SheetNames wb →
       sheet_to_json (Sheets wb !! "INPUTS") = inl err
       ∨ ((∃ rows, sheet_to_json (Sheets wb !! "INPUTS") = inr rows)
          ∧ sheet_to_json (Sheets wb !! "OUTPUTS") = inl err) →
       parse file (LoadEvent bytes) =
         failed ("Could not parse file: " +:+ messageText err)).
Proof.
  intros failed. repeat split.
  - intros bytes err Hread. simpl. unfold onload, onloadTry.
    by rewrite Hread.
  - intros bytes wb err Hread Hi Ho Hthrow. simpl. unfold onload.
    rewrite (onloadTry_both file bytes wb Hread Hi Ho).
    destruct Hthrow as [HI|[[rows HI] HO]].
    + by rewrite HI.
    + by rewrite HI, HO.
Qed.

(** C5: the code loses the underlying message when the library throws a
    bare string instead of an [Error] object: whatever the string, the
    result carries "Could not parse file: undefined", with empty
    [inputs] and [outputs]. *)
Theorem thrown_string_message_is_lost (file : File)
    (bytes : list Byte.byte) (s : string) :
  XLSX_read bytes = inl (ThrownString s) →
  parse file (LoadEvent bytes) =
    Resolved {| filename := name file; inputs := []; outputs := [];
                error := Some "Could not parse file: undefined" |}.
Proof.
  intros Hread. simpl. unfold onload, onloadTry. by rewrite Hread.
Qed.

(** C10: when the workbook is read, lists both sheets, and the library
    yields the rows of each, [error] is null, and a sheet none of whose
    rows has a [variable_name] key yields the empty list. *)
Theorem missing_column_yields_empty_list (file : File)
    (bytes : list Byte.byte) (wb : WorkBook WorkSheet)
    (rowsI rowsO : list (gmap string (Value number))) :
  XLSX_read bytes = inr wb →
  "INPUTS" ∈ SheetNames wb →
  "OUTPUTS" ∈ SheetNames wb →
  sheet_to_json (Sheets wb !! "INPUTS") = inr rowsI →
  sheet_to_json (Sheets wb !! "OUTPUTS") = inr rowsO →
  ∃ ins outs,
    parse file (LoadEvent bytes) =
      Resolved {| filename := name file; inputs := ins; outputs := outs;
                  error := None |}
    ∧ ((∀ row, row ∈ rowsI → row !! "variable_name" = None) → ins = [])
    ∧ ((∀ row, row ∈ rowsO → row !! "variable_name" = None) → outs = []).
Proof.
  intros Hread Hi Ho HrI HrO.
  exists (names rowsI), (names rowsO). split; [|split].
  - simpl. unfold onload.
    by rewrite (onloadTry_both file bytes wb Hread Hi Ho), HrI, HrO.
  - intros Hall. rewrite variableNamesOfRows_spec.
    by apply specNames_no_column.
  - intros Hall. rewrite variableNamesOfRows_spec.
    by apply specNames_no_column.
Qed.

End WithXLSX.

(** *** The theorems at work on the example workbooks *)

(** C1, as stated, fails: for a file that holds INPUTS and lacks OUTPUTS
    the message reads "Required sheet not found", not
    "Required sheet(s) not found". *)
Lemma missing_outputs_message_is_singular :
  parseToy wbInputsOnly {| name := "model.xlsx" |} (LoadEvent someBytes)
  = Resolved
      {| filename := "model.xlsx"; inputs := []; outputs := [];
         error :=
           Some "Required sheet not found: OUTPUTS. Sheets in this file: INPUTS." |}
  ∧ parseToy wbInputsOnly {| name := "model.xlsx" |} (LoadEvent someBytes)
    ≠ Resolved
        {| filename := "model.xlsx"; inputs := []; outputs := [];
           error :=
             Some "Required sheet(s) not found: OUTPUTS. Sheets in this file: INPUTS." |}
  ∧ specMissingMessage ["OUTPUTS"] ["INPUTS"]
    = "Required sheet(s) not found: OUTPUTS. Sheets in this file: INPUTS.".
Proof. split; [reflexivity|split; [discriminate|reflexivity]]. Qed.

Lemma missing_sheets_message_witness :
  parseToy wbInputsOnly {| name := "model.xlsx" |} (LoadEvent someBytes)
  = Resolved
      {| filename := "model.xlsx"; inputs := []; outputs := [];
         error :=
           Some "Required sheet not found: OUTPUTS. Sheets in this file: INPUTS." |}
  ∧ parseToy wbNoSheets {| name := "empty.xls" |} (LoadEvent someBytes)
  = Resolved
      {| filename := "empty.xls"; inputs := []; outputs := [];
         error :=
           Some "Required sheets not found: INPUTS and OUTPUTS. Sheets in this file: (no sheets found)." |}.
Proof.
  split.
  - apply (missing_sheets_message Z pretty _ (readAs wbInputsOnly) rowsOf
             {| name := "model.xlsx" |} someBytes wbInputsOnly eq_refl);
      compute_done.
  - apply (missing_sheets_message Z pretty _ (readAs wbNoSheets) rowsOf
             {| name := "empty.xls" |} someBytes wbNoSheets eq_refl);
      compute_done.
Defined.

Lemma parseExcelFile_variable_names_witness :
  parseToy wbBoth {| name := "model.xlsx" |} (LoadEvent someBytes)
  = Resolved
      {| filename := "model.xlsx";
         inputs := ["tax_rate"; "tax_rate"; "42"];
         outputs := [];
         error := None |}.
Proof.
  etrans.
  - apply (parseExcelFile_variable_names Z pretty _ (readAs wbBoth) rowsOf
             {| name := "model.xlsx" |} someBytes wbBoth
             [namedRow (Str "  tax_rate "); namedRow (Str "   ");
              namedRow (Str "tax_rate"); namedRow (Number 42%Z);
              namedRow (Str "")]
             [otherRow (Str "ebitda"); otherRow (Str "cogs")]);
      first [reflexivity | compute_done].
  - vm_compute. reflexivity.
Defined.

(** The failure paths on the example library. *)
Example failure_messages_example :
  parseToy wbBoth {| name := "model.xlsx" |} ErrorEvent
  = Resolved
      {| filename := "model.xlsx"; inputs := []; outputs := [];
         error := Some "Failed to read the file from disk." |}
  ∧ parseToy wbBoth {| name := "model.xlsx" |} (LoadEvent [])
  = Resolved
      {| filename := "model.xlsx"; inputs := []; outputs := [];
         error := Some "Could not parse file: File is empty" |}
  ∧ parseToy wbBroken {| name := "model.xlsx" |} (LoadEvent someBytes)
  = Resolved
      {| filename := "model.xlsx"; inputs := []; outputs := [];
         error := Some "Could not parse file: Sheet is undefined" |}.
Proof. repeat split. Qed.

Lemma thrown_string_message_is_lost_witness :
  parseExcelFile Z pretty (list (gmap string (Value Z))) readTruncated rowsOf
    {| name := "cut.xls" |} (LoadEvent someBytes)
  = Resolved
      {| filename := "cut.xls"; inputs := []; outputs := [];
         error := Some "Could not parse file: undefined" |}
  ∧ "Could not parse file: undefined"
    ≠ "Could not parse file: XLS Record 0x9 Truncated: 0 < 4".
Proof.
  split; [|discriminate].
  apply (thrown_string_message_is_lost Z pretty _ readTruncated rowsOf
           {| name := "cut.xls" |} someBytes
           "XLS Record 0x9 Truncated: 0 < 4").
  reflexivity.
Defined.

Lemma missing_column_yields_empty_list_witness :
  ∃ ins,
    parseToy wbBoth {| name := "model.xlsx" |} (LoadEvent someBytes)
    = Resolved
        {| filename := "model.xlsx"; inputs := ins; outputs := [];
           error := None |}.
Proof.
  destruct (missing_column_yields_empty_list Z pretty _ (readAs wbBoth) rowsOf
              {| name := "model.xlsx" |} someBytes wbBoth
              [namedRow (Str "  tax_rate "); namedRow (Str "   ");
               namedRow (Str "tax_rate"); namedRow (Number 42%Z);
               namedRow (Str "")]
              [otherRow (Str "ebitda"); otherRow (Str "cogs")])
    as (ins & outs & Hparse & _ & Houts);
    try first [reflexivity | compute_done].
  exists ins. unfold parseToy. rewrite Hparse, Houts; [reflexivity|].
  intros row Hrow.
  apply elem_of_cons in Hrow as [->|Hrow]; [reflexivity|].
  apply elem_of_cons in Hrow as [->|Hrow]; [reflexivity|].
  by apply elem_of_nil in Hrow.
Defined.

End ParseExcelProps.

(* ===================================================================== *)
(** * Properties of the model node *)
(* ===================================================================== *)

Module ModelNodeProps.

Import Js ModelNode.

Lemma patchData_length id' updates nds :
  length (patchData id' updates nds) = length nds.
Proof. unfold patchData. apply length_map. Qed.

Lemma patchData_ids id' updates nds :
  id <$> patchData id' updates nds = id <$> nds.
Proof.
  unfold patchData. induction nds as [|n nds IH]; [reflexivity|].
  cbn. f_equal; [|exact IH]. by case_bool_decide.
Qed.

Lemma patchData_lookup id' updates nds i n :
  nds !! i = Some n →
  patchData id' updates nds !! i =
    Some (if bool_decide (id n = id')
          then {| id := id n; type := type n; position := position n;
                  data := spread (data n) updates |}
          else n).
Proof.
  intros Hn. unfold patchData.
  change (List.map ?f nds) with (f <$> nds).
  by rewrite list_lookup_fmap, Hn.
Qed.

Lemma patchData_absent id' updates nds :
  id' ∉ (id <$> nds) → patchData id' updates nds = nds.
Proof.
  unfold patchData. induction nds as [|n nds IH]; intros Hnot;
    [reflexivity|].
  cbn in *. apply not_elem_of_cons in Hnot as [Hne Hnot].
  rewrite bool_decide_eq_false_2 by congruence.
  f_equal. by apply IH.
Qed.

(** C8: a result that arrives for a node id that is not among the nodes
    any more changes nothing: [patchData] returns the node list as it
    was, so no node is created and no node's data is modified. *)
Theorem patchData_removed_node_noop (id' : string) (updates : Updates)
    (nds : list Node) :
  id' ∉ (id <$> nds) →
  patchData id' updates nds = nds.
Proof. apply patchData_absent. Qed.

Lemma patchData_removed_node_noop_witness :
  patchData "node-1"
    {| u_label := Some "Late.xlsx"; u_inputs := Some ["a"];
       u_outputs := Some ["b"]; u_error := Some None |}
    [otherNode; duplicateNode]
  = [otherNode; duplicateNode].
Proof.
  apply (patchData_removed_node_noop "node-1" _ [otherNode; duplicateNode]).
  compute_done.
Defined.

(** C6, amended: every occurrence of a name in [inputs] (resp.
    [outputs]) is rendered with a handle of its own, in order, and the
    end of a connection it offers is the node id with "in-" (resp.
    "out-") followed by the name; two occurrences offer the same end
    exactly when they carry the same name. *)
Theorem endpoints_per_occurrence (n : Node) (i j : nat) (a b : string) :
  (inputs (data n) !! i = Some a → inputs (data n) !! j = Some b →
     inputEndpoints n !! i = Some (id n, "in-" +:+ a)
     ∧ inputEndpoints n !! j = Some (id n, "in-" +:+ b)
     ∧ (inputEndpoints n !! i = inputEndpoints n !! j ↔ a = b))
  ∧ (outputs (data n) !! i = Some a → outputs (data n) !! j = Some b →
     outputEndpoints n !! i = Some (id n, "out-" +:+ a)
     ∧ outputEndpoints n !! j = Some (id n, "out-" +:+ b)
     ∧ (outputEndpoints n !! i = outputEndpoints n !! j ↔ a = b)).
Proof.
  unfold inputEndpoints, outputEndpoints, inputHandles, outputHandles.
  split; intros Ha Hb.
  - assert (∀ k c, inputs (data n) !! k = Some c →
        List.map (fun h => (id n, h_id h))
          (List.map (fun name => {| h_type := target; h_id := "in-" +:+ name |})
             (inputs (data n))) !! k = Some (id n, "in-" +:+ c)) as Hk.
    { intros k c Hc.
      change (List.map ?f ?l) with (f <$> l).
      change (List.map ?f ?l) with (f <$> l).
      by rewrite !list_lookup_fmap, Hc. }
    rewrite (Hk i a Ha), (Hk j b Hb). repeat split; try done.
    + intros [= Heq]. exact Heq.
    + by intros ->.
  - assert (∀ k c, outputs (data n) !! k = Some c →
        List.map (fun h => (id n, h_id h))
          (List.map (fun name => {| h_type := source; h_id := "out-" +:+ name |})
             (outputs (data n))) !! k = Some (id n, "out-" +:+ c)) as Hk.
    { intros k c Hc.
      change (List.map ?f ?l) with (f <$> l).
      change (List.map ?f ?l) with (f <$> l).
      by rewrite !list_lookup_fmap, Hc. }
    rewrite (Hk i a Ha), (Hk j b Hb). repeat split; try done.
    + intros [= Heq]. exact Heq.
    + by intros ->.
Qed.

Lemma endpoints_per_occurrence_witness :
  inputEndpoints duplicateNode !! 0 = Some ("node-4", "in-x")
  ∧ inputEndpoints duplicateNode !! 1 = Some ("node-4", "in-x")
  ∧ (inputEndpoints duplicateNode !! 0 = inputEndpoints duplicateNode !! 1
     ↔ "x" = "x").
Proof.
  apply (proj1 (endpoints_per_occurrence duplicateNode 0 1 "x" "x"));
    reflexivity.
Defined.

(** C6, as stated, fails: the two occurrences of the input [x] are
    kept and rendered, and both offer the end ("node-4", "in-x"), so the
    ends of the occurrences are not distinct. *)
Lemma duplicate_inputs_share_endpoint :
  inputs (data duplicateNode) = ["x"; "x"]
  ∧ inputEndpoints duplicateNode = [("node-4", "in-x"); ("node-4", "in-x")]
  ∧ ¬ NoDup (inputEndpoints duplicateNode).
Proof.
  split; [reflexivity|split; [reflexivity|]].
  intros Hnd. apply NoDup_cons in Hnd as [Hnot _].
  apply Hnot. left.
Qed.

Section WithXLSX.

Variable number : Type.
Variable numberToString : number → string.
Variable WorkSheet : Type.
Variable XLSX_read : list Byte.byte → M (ParseExcel.WorkBook WorkSheet).
Variable sheet_to_json :
  option WorkSheet → M (list (gmap string (Value number))).

Local Abbreviation parse :=
  (ParseExcel.parseExcelFile number numberToString WorkSheet XLSX_read
     sheet_to_json).
Local Abbreviation drop :=
  (onDrop number numberToString WorkSheet XLSX_read sheet_to_json).

(** A result that carries an error carries no names. *)
Lemma error_result_is_empty file ev r msg :
  parse file ev = Resolved r →
  ParseExcel.error r = Some msg →
  ParseExcel.inputs r = [] ∧ ParseExcel.outputs r = []
  ∧ ParseExcel.filename r = ParseExcel.name file.
Proof.
  destruct ev as [bytes|]; simpl.
  - unfold ParseExcel.onload, tryCatch, ParseExcel.onloadTry.
    destruct (XLSX_read bytes) as [e|wb]; simpl.
    { intros [= <-]. done. }
    destruct (0 <? length _); simpl.
    { intros [= <-]. done. }
    unfold ParseExcel.readVariableNames.
    destruct (sheet_to_json (ParseExcel.Sheets wb !! "INPUTS")); simpl.
    { intros [= <-]. done. }
    destruct (sheet_to_json (ParseExcel.Sheets wb !! "OUTPUTS")); simpl.
    { intros [= <-]. done. }
    intros [= <-]. done.
  - unfold ParseExcel.onerror. intros [= <-]. done.
Qed.

(** C2, amended: a drop that ends in an error leaves every node in the
    list.  When the drop holds no spreadsheet file, the node keeps its
    label and its input and output lists and only [error] changes.  When
    a file is parsed and the result carries an error, [label] becomes
    the file name, [error] the message, and [inputs] and [outputs]
    become empty. *)
Theorem onDrop_error_effect (id' : string) (files : list ParseExcel.File)
    (ev : ParseExcel.ReaderEvent) (nds : list Node) (i : nat) (n : Node) :
  nds !! i = Some n →
  id n = id' →
  id <$> drop id' files ev nds = id <$> nds
  ∧ (find (fun f => isExcelName (ParseExcel.name f)) files = None →
     drop id' files ev nds !! i =
       Some {| id := id n; type := type n; position := position n;
               data := {| label := label (data n);
                          order := order (data n);
                          inputs := inputs (data n);
                          outputs := outputs (data n);
                          error := Some "Only .xlsx / .xls files are accepted." |} |})
  ∧ (∀ file r msg,
       find (fun f => isExcelName (ParseExcel.name f)) files = Some file →
       parse file ev = Resolved r →
       ParseExcel.error r = Some msg →
       drop id' files ev nds !! i =
         Some {| id := id n; type := type n; position := position n;
                 data := {| label := ParseExcel.name file;
                            order := order (data n);
                            inputs := [];
                            outputs := [];
                            error := Some msg |} |}).
Proof.
  intros Hn Hid. split; [|split].
  - unfold onDrop.
    destruct (find _ files) as [file|]; [|apply patchData_ids].
    destruct (parse file ev); [done|apply patchData_ids|done].
  - intros Hnone. unfold onDrop. rewrite Hnone.
    rewrite (patchData_lookup _ _ _ _ _ Hn).
    by rewrite bool_decide_eq_true_2.
  - intros file r msg Hfile Hparse Herr. unfold onDrop.
    rewrite Hfile, Hparse.
    rewrite (patchData_lookup _ _ _ _ _ Hn).
    rewrite bool_decide_eq_true_2 by assumption.
    destruct (error_result_is_empty file ev r msg Hparse Herr)
      as (Hins & Houts & Hname).
    unfold spread. simpl. by rewrite Hins, Houts, Hname, Herr.
Qed.

End WithXLSX.

(** C2, as stated, fails: the node had two inputs and three outputs; a
    file that cannot be parsed is dropped on it; the node is still there,
    with an error, and its port lists are not the ones it had: they are
    empty. *)
Lemma failed_drop_clears_ports :
  dropToy ParseExcel.wbBoth "node-1" [ {| ParseExcel.name := "broken.xlsx" |} ]
    (ParseExcel.LoadEvent []) [loadedNode; otherNode]
  = [clearedNode; otherNode]
  ∧ error (data clearedNode) ≠ None
  ∧ inputs (data clearedNode) ≠ inputs (data loadedNode)
  ∧ outputs (data clearedNode) ≠ outputs (data loadedNode).
Proof.
  split; [vm_compute; reflexivity|].
  split; [discriminate|split; discriminate].
Qed.

Lemma onDrop_error_effect_witness :
  dropToy ParseExcel.wbBoth "node-1" [ {| ParseExcel.name := "notes.txt" |} ]
    ParseExcel.ErrorEvent [loadedNode; otherNode] !! 0
  = Some {| id := "node-1"; type := "modelNode";
            position := {| x := 80; y := 120 |};
            data := {| label := "Revenue Model.xlsx"; order := Some 1%Z;
                       inputs := ["tax_rate"; "discount_rate"];
                       outputs := ["gross_revenue"; "net_revenue"; "ebitda"];
                       error := Some "Only .xlsx / .xls files are accepted." |} |}.
Proof.
  apply (onDrop_error_effect Z pretty _ (ParseExcel.readAs ParseExcel.wbBoth)
           ParseExcel.rowsOf "node-1" [ {| ParseExcel.name := "notes.txt" |} ]
           ParseExcel.ErrorEvent [loadedNode; otherNode] 0 loadedNode
           eq_refl eq_refl).
  reflexivity.
Defined.

End ModelNodeProps.

(* ===================================================================== *)
(** * Properties of wiring *)
(* ===================================================================== *)

Module AppProps.

Import Js App.

Lemma truthy_nonempty (s : string) : s ≠ "" → truthy s = true.
Proof. destruct s; [congruence|reflexivity]. Qed.

Lemma sameHandle_refl (h : option string) : sameHandle h h = true.
Proof. unfold sameHandle. by rewrite bool_decide_eq_true_2. Qed.

(** A handle that is not falsy names the same end as equal handles
    only. *)
Lemma sameHandle_truthy (a : option string) (s : string) :
  s ≠ "" → sameHandle a (Some s) = true → a = Some s.
Proof.
  intros Hs. unfold sameHandle. simpl.
  rewrite (truthy_nonempty s Hs), andb_false_r, orb_false_r.
  apply bool_decide_eq_true.
Qed.

Lemma connectionExists_true c eds :
  connectionExists c eds = true →
  ∃ e, e ∈ eds
       ∧ source e = c_source c ∧ target e = c_target c
       ∧ sameHandle (sourceHandle e) (c_sourceHandle c) = true
       ∧ sameHandle (targetHandle e) (c_targetHandle c) = true.
Proof.
  unfold connectionExists. rewrite existsb_exists.
  intros (e & He & Hsame). exists e.
  apply list_elem_of_In in He. unfold sameConnection in Hsame.
  apply andb_true_iff in Hsame as [Hsame Hth].
  apply andb_true_iff in Hsame as [Hsame Hsh].
  apply andb_true_iff in Hsame as [Hs Ht].
  apply bool_decide_eq_true in Hs, Ht. auto.
Qed.

(** What [addEdge] returns, case by case. *)
Lemma addEdge_cases p eds :
  (addEdge p eds = eds
   ∧ (c_source (p_connection p) = "" ∨ c_target (p_connection p) = ""
      ∨ connectionExists (p_connection p) eds = true))
  ∨ (c_source (p_connection p) ≠ "" ∧ c_target (p_connection p) ≠ ""
     ∧ connectionExists (p_connection p) eds = false
     ∧ addEdge p eds =
         eds ++ [ {| id := getEdgeId (p_connection p);
                     source := c_source (p_connection p);
                     sourceHandle := c_sourceHandle (p_connection p);
                     target := c_target (p_connection p);
                     targetHandle := c_targetHandle (p_connection p);
                     animated := p_animated p; stroke := p_stroke p |} ]).
Proof.
  unfold addEdge.
  destruct (c_source (p_connection p)) as [|a src] eqn:Hs; simpl; [left; auto|].
  destruct (c_target (p_connection p)) as [|b tgt] eqn:Ht; simpl; [left; auto|].
  destruct (connectionExists (p_connection p) eds) eqn:Hex; [left; auto|].
  right. repeat split; done.
Qed.

(** C7: [onConnect] compares no names.  Wiring output [v1] of node [s]
    to input [v2] of node [t] leaves an edge between exactly these two
    ends among the edges, whether or not [v1] and [v2] are the same
    name; when the connection is new, that edge is appended, animated
    and coloured. *)
Theorem onConnect_accepts_any_names (s v1 t v2 : string)
    (eds : list Edge) :
  s ≠ "" →
  t ≠ "" →
  ∃ e,
    e ∈ onConnect addEdge (wire s v1 t v2) eds
    ∧ source e = s ∧ sourceHandle e = Some ("out-" +:+ v1)
    ∧ target e = t ∧ targetHandle e = Some ("in-" +:+ v2)
    ∧ (connectionExists (wire s v1 t v2) eds = false →
       onConnect addEdge (wire s v1 t v2) eds = eds ++ [e]
       ∧ animated e = true ∧ stroke e = "#6366f1").
Proof.
  intros Hs Ht. unfold onConnect.
  destruct (addEdge_cases
              {| p_connection := wire s v1 t v2; p_animated := true;
                 p_stroke := "#6366f1" |} eds)
    as [[Hsame [Hsrc|[Htgt|Hex]]]|(_ & _ & Hex & Hnew)]; simpl in *.
  - done.
  - done.
  - rewrite Hsame.
    destruct (connectionExists_true _ _ Hex)
      as (e & He & Hsrc & Htgt & Hsh & Hth).
    simpl in *.
    apply sameHandle_truthy in Hsh; [|discriminate].
    apply sameHandle_truthy in Hth; [|discriminate].
    exists e. repeat split; try assumption.
    all: exfalso; congruence.
  - rewrite Hnew. eexists. split; [apply elem_of_app; right; left|].
    simpl. repeat split.
Qed.

Lemma onConnect_accepts_any_names_witness :
  ∃ e,
    e ∈ onConnect addEdge (wire "node-3" "headcount" "node-1" "tax_rate")
          SAMPLE_EDGES
    ∧ source e = "node-3" ∧ sourceHandle e = Some "out-headcount"
    ∧ target e = "node-1" ∧ targetHandle e = Some "in-tax_rate"
    ∧ (connectionExists (wire "node-3" "headcount" "node-1" "tax_rate")
         SAMPLE_EDGES = false →
       onConnect addEdge (wire "node-3" "headcount" "node-1" "tax_rate")
         SAMPLE_EDGES = SAMPLE_EDGES ++ [e]
       ∧ animated e = true ∧ stroke e = "#6366f1").
Proof.
  apply (onConnect_accepts_any_names
           "node-3" "headcount" "node-1" "tax_rate" SAMPLE_EDGES);
    discriminate.
Defined.

(** The new edge of the example, spelled out. *)
Example onConnect_sample :
  onConnect addEdge (wire "node-3" "headcount" "node-1" "tax_rate")
    SAMPLE_EDGES
  = SAMPLE_EDGES
    ++ [ {| id := "xy-edge__node-3out-headcount-node-1in-tax_rate";
            source := "node-3"; sourceHandle := Some "out-headcount";
            target := "node-1"; targetHandle := Some "in-tax_rate";
            animated := true; stroke := "#6366f1" |} ].
Proof. reflexivity. Qed.

(** An absent handle and an empty handle are one end: connecting the
    ends of [bareEdge] again, written with the other falsy handles,
    returns the edges as they are. *)
Example onConnect_falsy_handles :
  onConnect addEdge bareConnection (SAMPLE_EDGES ++ [bareEdge])
  = SAMPLE_EDGES ++ [bareEdge].
Proof. reflexivity. Qed.

End AppProps.

(* ===================================================================== *)
(** * Properties of the order engine *)
(* ===================================================================== *)

Module OrderEngineProps.

Import OrderEngine.

(** *** Lists filtered by a boolean test *)

Lemma elem_of_bfilter {A} (f : A → bool) (l : list A) (x : A) :
  x ∈ List.filter f l ↔ x ∈ l ∧ f x = true.
Proof. rewrite !list_elem_of_In. apply filter_In. Qed.

Lemma bfilter_all {A} (f : A → bool) (l : list A) :
  (∀ x, f x = true) → List.filter f l = l.
Proof.
  intros Hf. induction l as [|x l IH]; [reflexivity|].
  simpl. by rewrite Hf, IH.
Qed.

Lemma bfilter_length_le {A} (f g : A → bool) (l : list A) :
  (∀ x, g x = true → f x = true) →
  length (List.filter g l) ≤ length (List.filter f l).
Proof.
  intros Hgf. induction l as [|y l IH]; simpl; [lia|].
  destruct (g y) eqn:Hg.
  - rewrite (Hgf y Hg). simpl. lia.
  - destruct (f y); simpl; lia.
Qed.

Lemma bfilter_length_lt {A} (f g : A → bool) (l : list A) (x : A) :
  (∀ y, g y = true → f y = true) →
  x ∈ l → f x = true → g x = false →
  length (List.filter g l) < length (List.filter f l).
Proof.
  intros Hgf Hx Hfx Hgx. induction l as [|y l IH]; simpl.
  - by apply elem_of_nil in Hx.
  - apply elem_of_cons in Hx as [<-|Hx].
    + rewrite Hfx, Hgx. simpl.
      pose proof (bfilter_length_le f g l Hgf). lia.
    + specialize (IH Hx). destruct (g y) eqn:Hg.
      * rewrite (Hgf y Hg). simpl. lia.
      * destruct (f y); simpl; lia.
Qed.

Lemma bfilter_length_pos {A} (f : A → bool) (l : list A) :
  0 < length (List.filter f l) → ∃ x, x ∈ l ∧ f x = true.
Proof.
  intros Hpos. destruct (List.filter f l) as [|x l'] eqn:Hf;
    [simpl in Hpos; lia|].
  exists x. apply elem_of_bfilter. rewrite Hf. left.
Qed.

Lemma bfilter_length_zero {A} (f : A → bool) (l : list A) (x : A) :
  length (List.filter f l) = 0 → x ∈ l → f x = false.
Proof.
  intros Hz Hx. destruct (f x) eqn:Hfx; [|reflexivity].
  assert (x ∈ List.filter f l) as Hin by (by apply elem_of_bfilter).
  destruct (List.filter f l); [by apply elem_of_nil in Hin|discriminate].
Qed.

(** *** The working in-degree counts *)

Lemma removeOutgoing_count E L d n :
  removeOutgoing E L d n = d n - fromLayer E L n.
Proof.
  unfold removeOutgoing, fromLayer. revert d.
  induction E as [|e E IH]; intros d; simpl; [lia|].
  rewrite IH. unfold decrement.
  destruct (bool_decide (src e ∈ L)); simpl; [|reflexivity].
  destruct (bool_decide_reflect (tgt e = n)) as [->|Hne].
  - rewrite bool_decide_eq_true_2 by reflexivity. simpl. lia.
  - rewrite bool_decide_eq_false_2 by congruence. reflexivity.
Qed.

Lemma pendingIn_split E P L n :
  (∀ m, m ∈ L → m ∉ P) →
  pendingIn E P n = fromLayer E L n + pendingIn E (P ++ L) n.
Proof.
  intros Hdisj. unfold pendingIn, fromLayer.
  induction E as [|e E IH]; simpl; [reflexivity|].
  destruct (bool_decide_reflect (tgt e = n)) as [Ht|Ht]; simpl.
  - destruct (bool_decide_reflect (src e ∈ L)) as [HL|HL]; simpl.
    + rewrite (bool_decide_eq_false_2 (src e ∈ P)) by auto.
      rewrite (bool_decide_eq_true_2 (src e ∈ P ++ L))
        by (apply elem_of_app; auto).
      simpl. lia.
    + destruct (bool_decide_reflect (src e ∈ P)) as [HP|HP]; simpl.
      * rewrite (bool_decide_eq_true_2 (src e ∈ P ++ L))
          by (apply elem_of_app; auto).
        simpl. exact IH.
      * rewrite (bool_decide_eq_false_2 (src e ∈ P ++ L))
          by (rewrite elem_of_app; tauto).
        simpl. lia.
  - rewrite andb_false_r. simpl. exact IH.
Qed.

Lemma inDegree_pendingIn E n : inDegree E n = pendingIn E [] n.
Proof.
  unfold inDegree, pendingIn. f_equal. apply filter_ext. intros e.
  rewrite (bool_decide_eq_false_2 (src e ∈ [])) by apply not_elem_of_nil.
  by rewrite andb_true_r.
Qed.

Lemma pendingIn_zero E P n e :
  pendingIn E P n = 0 → e ∈ E → tgt e = n → src e ∈ P.
Proof.
  intros Hz He Ht.
  pose proof (bfilter_length_zero _ _ e Hz He) as Hf. simpl in Hf.
  rewrite (bool_decide_eq_true_2 _ Ht) in Hf. simpl in Hf.
  apply negb_false_iff, bool_decide_eq_true in Hf. exact Hf.
Qed.

Lemma pendingIn_pos E P n :
  0 < pendingIn E P n → ∃ e, e ∈ E ∧ tgt e = n ∧ src e ∉ P.
Proof.
  intros Hpos. apply bfilter_length_pos in Hpos as (e & He & Hf).
  apply andb_true_iff in Hf as [Ht Hs].
  apply bool_decide_eq_true in Ht.
  apply negb_true_iff, bool_decide_eq_false in Hs. eauto.
Qed.

Lemma fromLayer_pos E L n :
  0 < fromLayer E L n → ∃ e, e ∈ E ∧ src e ∈ L ∧ tgt e = n.
Proof.
  intros Hpos. apply bfilter_length_pos in Hpos as (e & He & Hf).
  apply andb_true_iff in Hf as [Hs Ht].
  apply bool_decide_eq_true in Hs, Ht. eauto.
Qed.

(** *** The invariant of the iteration *)

Section Layers.

Variable R : list string.
Variable E : list Edge.

Local Abbreviation nextLayer := (OrderEngine.nextLayer R).

Lemma layers_unfold fuel d L :
  layers (S fuel) R E d L =
    match nextLayer d (removeOutgoing E L d) with
    | [] => [L]
    | _ :: _ =>
        L :: layers fuel R E (removeOutgoing E L d)
               (nextLayer d (removeOutgoing E L d))
    end.
Proof. reflexivity. Qed.

Lemma elem_of_nextLayer d d' n :
  n ∈ nextLayer d d' ↔ n ∈ R ∧ d n ≠ 0 ∧ d' n = 0.
Proof.
  unfold nextLayer. rewrite elem_of_bfilter, andb_true_iff, negb_true_iff.
  rewrite !Nat.eqb_eq, Nat.eqb_neq. tauto.
Qed.

Lemma layersInv_init :
  layersInv R E [] (inDegree E)
    (List.filter (fun n => Nat.eqb (inDegree E n) 0) R).
Proof.
  split; [|split].
  - apply inDegree_pendingIn.
  - intros n Hn. apply elem_of_bfilter in Hn as [Hn _].
    split; [exact Hn|apply not_elem_of_nil].
  - intros n Hn. rewrite elem_of_bfilter, Nat.eqb_eq. split.
    + auto.
    + intros [Hnil|[_ Hz]]; [by apply elem_of_nil in Hnil|exact Hz].
Qed.

Lemma layersInv_step P d L :
  layersInv R E P d L →
  layersInv R E (P ++ L) (removeOutgoing E L d)
    (nextLayer d (removeOutgoing E L d)).
Proof.
  intros (Hd & HL & Hz).
  assert (Hd' : ∀ n, removeOutgoing E L d n = pendingIn E (P ++ L) n).
  { intros n. rewrite removeOutgoing_count, Hd.
    rewrite (pendingIn_split E P L n) by (intros m Hm; apply HL, Hm). lia. }
  split; [exact Hd'|split].
  - intros n Hn. apply elem_of_nextLayer in Hn as (HnR & Hnz & _).
    split; [exact HnR|].
    rewrite elem_of_app. intros Hin. apply Hnz, Hz; assumption.
  - intros n HnR. rewrite elem_of_nextLayer, elem_of_app.
    pose proof (removeOutgoing_count E L d n) as Hc.
    specialize (Hz n HnR). split.
    + intros Hz'. destruct (decide (d n = 0)) as [Hd0|Hd0]; tauto.
    + intros [Hin|(_ & _ & Hz')]; [|exact Hz'].
      apply Hz in Hin. lia.
Qed.

(** The first layer returned is the layer the iteration starts from. *)
Lemma layers_head fuel d L :
  ∃ ls, layers fuel R E d L = L :: ls.
Proof.
  destruct fuel as [|fuel]; [by exists []|].
  rewrite layers_unfold. destruct (nextLayer _ _); eauto.
Qed.

Lemma layerIndex_zero fuel d L n :
  layerIndex (layers fuel R E d L) n = Some 0 ↔ n ∈ L.
Proof.
  destruct (layers_head fuel d L) as [ls ->]. simpl.
  case_bool_decide; [done|].
  destruct (layerIndex ls n); simpl; split; intros; done.
Qed.

(** A node of a layer is a remaining node that was not processed
    before. *)
Lemma layers_fresh fuel P d L n j :
  layersInv R E P d L →
  layerIndex (layers fuel R E d L) n = Some j →
  n ∈ R ∧ n ∉ P.
Proof.
  revert P d L j. induction fuel as [|fuel IH]; intros P d L j Hinv.
  - simpl. case_bool_decide; [|done]. intros _. by apply Hinv.
  - rewrite layers_unfold.
    destruct (nextLayer d (removeOutgoing E L d)) eqn:Hnext.
    + simpl. case_bool_decide; [|done]. intros _. by apply Hinv.
    + rewrite <- Hnext. simpl. case_bool_decide; [intros _; by apply Hinv|].
      destruct (layerIndex _ n) as [j'|] eqn:Hidx; [|done]. intros _.
      destruct (IH _ _ _ _ (layersInv_step _ _ _ Hinv) Hidx) as [HnR HnP].
      split; [exact HnR|]. rewrite elem_of_app in HnP. tauto.
Qed.

(** Every edge into a node of layer [j] leaves a node processed before
    or a node of an earlier layer. *)
Lemma layers_sources_earlier fuel P d L n j e :
  layersInv R E P d L →
  layerIndex (layers fuel R E d L) n = Some j →
  e ∈ E → tgt e = n →
  src e ∈ P
  ∨ ∃ i, i < j ∧ layerIndex (layers fuel R E d L) (src e) = Some i.
Proof.
  intros Hinv Hidx He Ht. revert P d L j Hinv Hidx.
  assert (Hbase : ∀ P d L, layersInv R E P d L → n ∈ L → src e ∈ P).
  { intros P d L (Hd & HL & Hz) HnL.
    apply (pendingIn_zero E P n e); [|assumption..].
    rewrite <- Hd. apply Hz; [by apply HL|by right]. }
  induction fuel as [|fuel IH]; intros P d L j Hinv.
  - simpl. case_bool_decide; [|done]. intros _. left. eauto.
  - rewrite layers_unfold.
    destruct (nextLayer d (removeOutgoing E L d)) eqn:Hnext.
    + simpl. case_bool_decide; [|done]. intros _. left. eauto.
    + rewrite <- Hnext. simpl.
      case_bool_decide as HnL; [intros _; left; eauto|].
      destruct (layerIndex _ n) as [j'|] eqn:Hidx; [|done].
      intros [= <-].
      destruct (IH _ _ _ _ (layersInv_step _ _ _ Hinv) Hidx)
        as [HP|(i & Hi & Hsrc)].
      * apply elem_of_app in HP as [HP|HsL]; [by left|].
        right. exists 0. split; [lia|].
        by rewrite bool_decide_eq_true_2.
      * right. case_bool_decide.
        -- exists 0. split; [lia|reflexivity].
        -- exists (S i). split; [lia|]. by rewrite Hsrc.
Qed.

(** A node of layer [j+1] has an edge from a node of layer [j]. *)
Lemma layers_source_before fuel P d L n j :
  layersInv R E P d L →
  layerIndex (layers fuel R E d L) n = Some (S j) →
  ∃ e, e ∈ E ∧ tgt e = n
       ∧ layerIndex (layers fuel R E d L) (src e) = Some j.
Proof.
  revert P d L j. induction fuel as [|fuel IH]; intros P d L j Hinv.
  - simpl. case_bool_decide; done.
  - rewrite layers_unfold.
    destruct (nextLayer d (removeOutgoing E L d)) eqn:Hnext.
    + simpl. case_bool_decide; done.
    + rewrite <- Hnext. simpl. case_bool_decide as HnL; [done|].
      destruct (layerIndex _ n) as [j'|] eqn:Hidx; [|done].
      intros [= ->].
      pose proof (layersInv_step _ _ _ Hinv) as Hinv'.
      destruct j as [|j].
      * apply layerIndex_zero, elem_of_nextLayer in Hidx
          as (HnR & Hnz & Hz').
        rewrite removeOutgoing_count in Hz'.
        destruct (fromLayer_pos E L n) as (e & He & HsL & Ht); [lia|].
        exists e. repeat split; [assumption..|].
        by rewrite bool_decide_eq_true_2.
      * destruct (IH _ _ _ _ Hinv' Hidx) as (e & He & Ht & Hsrc).
        exists e. repeat split; [assumption..|].
        destruct (layers_fresh _ _ _ _ _ _ Hinv' Hsrc) as [_ HsP].
        rewrite elem_of_app in HsP.
        rewrite bool_decide_eq_false_2 by tauto. by rewrite Hsrc.
Qed.

(** *** Acyclic graphs are ranked completely *)

Lemma tc_flip {A} (Rel : relation A) x y : tc (flip Rel) x y → tc Rel y x.
Proof.
  induction 1 as [x y Hxy|x y z Hxy _ IH].
  - by apply tc_once.
  - eapply tc_r; [exact IH|exact Hxy].
Qed.

Lemma tc_last {A} (Rel : relation A) x y : tc Rel x y → ∃ z, Rel z y.
Proof. induction 1; eauto. Qed.

Hypothesis E_acyclic : ∀ n, ¬ tc (linked E) n n.

(** In an acyclic graph, a set of nodes in which every node has an edge
    from a node of the set is empty. *)
Lemma no_closed_set (U : string → Prop) :
  (∀ n, U n → ∃ e, e ∈ E ∧ tgt e = n ∧ U (src e)) →
  ∀ n, ¬ U n.
Proof.
  intros Hclosed n.
  assert (Hsn : sn (flip (linked E)) n).
  { apply tc_finite_sn.
    - intros m Hm. apply (E_acyclic m). by apply tc_flip.
    - exists (src <$> E). intros m Hm.
      apply tc_last in Hm as (z & e & He & Hs & _).
      subst m. apply list_elem_of_fmap. eauto. }
  induction Hsn as [n _ IH]. intros Hn.
  destruct (Hclosed n Hn) as (e & He & Ht & Hs).
  apply (IH (src e)); [|exact Hs].
  exists e. auto.
Qed.

Lemma layers_complete fuel P d L n :
  (∀ e, e ∈ E → src e ∈ R) →
  layersInv R E P d L →
  length (List.filter (fun m => negb (bool_decide (m ∈ P))) R) ≤ fuel →
  n ∈ R →
  n ∈ P ∨ is_Some (layerIndex (layers fuel R E d L) n).
Proof.
  intros HE. revert P d L.
  assert (Hstop : ∀ P d L,
    layersInv R E P d L →
    nextLayer d (removeOutgoing E L d) = [] →
    n ∈ R → n ∈ P ∨ n ∈ L).
  { intros P d L Hinv Hnext HnR.
    destruct (layersInv_step _ _ _ Hinv) as (Hd' & _ & Hz').
    rewrite Hnext in Hz'.
    destruct (decide (n ∈ P ++ L)) as [Hin|Hnot];
      [by apply elem_of_app in Hin|].
    exfalso.
    apply (no_closed_set (fun m => m ∈ R ∧ m ∉ P ++ L)) with (n := n);
      [|by split].
    intros m [HmR HmP].
    destruct (pendingIn_pos E (P ++ L) m) as (e & He & Ht & Hs).
    { rewrite <- Hd'.
      destruct (decide (removeOutgoing E L d m = 0)) as [Hz|Hz]; [|lia].
      apply Hz' in Hz as [Hz|Hz]; [done|by apply elem_of_nil in Hz|done]. }
    exists e. repeat split; auto. }
  induction fuel as [|fuel IH]; intros P d L Hinv Hfuel HnR.
  - left. destruct (decide (n ∈ P)) as [|HnP]; [done|exfalso].
    assert (n ∈ List.filter (fun m => negb (bool_decide (m ∈ P))) R) as Hin.
    { apply elem_of_bfilter. split; [done|].
      by rewrite bool_decide_eq_false_2. }
    destruct (List.filter _ R); [by apply elem_of_nil in Hin|simpl in Hfuel; lia].
  - rewrite layers_unfold.
    destruct (nextLayer d (removeOutgoing E L d)) as [|m L'] eqn:Hnext.
    + destruct (Hstop P d L Hinv Hnext HnR) as [|HnL]; [by left|].
      right. simpl. by rewrite bool_decide_eq_true_2.
    + rewrite <- Hnext. simpl.
      case_bool_decide as HnL; [right; done|].
      pose proof (layersInv_step _ _ _ Hinv) as Hinv'.
      destruct (IH (P ++ L) _ _ Hinv') as [HP|Hsome]; [|done| |].
      * (* the layer is not empty, so fewer nodes are left *)
        assert (m ∈ nextLayer d (removeOutgoing E L d)) as Hm
          by (rewrite Hnext; left).
        apply elem_of_nextLayer in Hm as (HmR & Hmz & Hmz').
        rewrite removeOutgoing_count in Hmz'.
        destruct (fromLayer_pos E L m) as (e & He & HsL & _); [lia|].
        destruct Hinv as (_ & HL & _).
        destruct (HL _ HsL) as [HsR HsP].
        pose proof (bfilter_length_lt
          (fun m => negb (bool_decide (m ∈ P)))
          (fun m => negb (bool_decide (m ∈ P ++ L))) R (src e)) as Hlt.
        cbv beta in Hlt.
        rewrite (bool_decide_eq_false_2 (src e ∈ P)) in Hlt by done.
        rewrite (bool_decide_eq_true_2 (src e ∈ P ++ L)) in Hlt
          by (apply elem_of_app; auto).
        specialize (Hlt ltac:(intros y Hy; apply negb_true_iff, bool_decide_eq_false in Hy;
                              apply negb_true_iff, bool_decide_eq_false;
                              rewrite elem_of_app in Hy; tauto)
                        HsR eq_refl eq_refl).
        lia.
      * apply elem_of_app in HP as [HP|HP]; [by left|done].
      * right. destruct Hsome as [j Hj]. rewrite Hj. done.
Qed.

End Layers.

(** *** [computeRanks] *)

Lemma computeRanks_lookup g n res :
  computeRanks g !! n = Some res →
  n ∈ (id <$> nodes g) ∧ res = rankOf g n.
Proof.
  intros Hlook. unfold computeRanks in Hlook.
  apply elem_of_list_to_map_2, list_elem_of_fmap in Hlook
    as (nd & [= -> ->] & Hnd).
  split; [|reflexivity]. apply list_elem_of_fmap. eauto.
Qed.

Lemma computeRanks_node g n :
  n ∈ (id <$> nodes g) → computeRanks g !! n = Some (rankOf g n).
Proof.
  intros Hn.
  destruct (computeRanks g !! n) as [res|] eqn:Hlook.
  - by apply computeRanks_lookup in Hlook as [_ ->].
  - exfalso. unfold computeRanks in Hlook.
    apply not_elem_of_list_to_map in Hlook. apply Hlook.
    rewrite <- list_fmap_compose.
    apply list_elem_of_fmap in Hn as (nd & -> & Hnd).
    apply list_elem_of_fmap. by exists nd.
Qed.

Lemma rankOf_ranked g n r :
  rankOf g n = Ranked r ↔
  ((n ∉ degraded g)
   ∧ layerIndex
       (kahn (remaining g) (edgesAmong (remaining g) (edges g))) n = Some r).
Proof.
  unfold rankOf. case_bool_decide as Hdeg.
  - split; [done|]. intros [? _]. done.
  - destruct (layerIndex _ n) as [k|]; split.
    + intros [= ->]. done.
    + intros [_ [= ->]]. done.
    + done.
    + intros [_ ?]. done.
Qed.

Lemma elem_of_remaining g n :
  n ∈ remaining g ↔ n ∈ (id <$> nodes g) ∧ n ∉ degraded g.
Proof.
  unfold remaining. rewrite elem_of_bfilter, negb_true_iff.
  by rewrite bool_decide_eq_false.
Qed.

Lemma elem_of_edgesAmong R E e :
  e ∈ edgesAmong R E ↔ e ∈ E ∧ src e ∈ R ∧ tgt e ∈ R.
Proof.
  unfold edgesAmong. rewrite elem_of_bfilter, andb_true_iff.
  by rewrite !bool_decide_eq_true.
Qed.

Lemma kahn_member R E n j :
  layerIndex (kahn R E) n = Some j → n ∈ R.
Proof.
  intros Hidx.
  by destruct (layers_fresh R E _ _ _ _ _ _ (layersInv_init R E) Hidx).
Qed.

Lemma dependentsOf_nil E : dependentsOf E [] = [].
Proof.
  unfold dependentsOf. induction E as [|e E IH]; [reflexivity|]. simpl.
  exact IH.
Qed.

Lemma propagate_nil fuel E : propagate fuel E [] = [].
Proof.
  induction fuel as [|fuel IH]; [reflexivity|]. simpl.
  by rewrite dependentsOf_nil.
Qed.

Lemma degraded_nil g :
  (∀ nd, nd ∈ nodes g → loadError nd = None) → degraded g = [].
Proof.
  intros Hall. unfold degraded, errorNodes.
  assert (List.filter (fun n => bool_decide (is_Some (loadError n))) (nodes g)
          = []) as ->; [|apply propagate_nil].
  induction (nodes g) as [|nd nds IH]; [reflexivity|]. simpl.
  rewrite (Hall nd) by left.
  rewrite bool_decide_eq_false_2 by (by intros [? ?]).
  apply IH. intros nd' Hnd'. apply Hall. by right.
Qed.

(** A graph whose nodes can be numbered so that every edge goes up is
    acyclic. *)
Lemma numbered_acyclic g (ord : string → nat) :
  (∀ e, e ∈ edges g → ord (src e) < ord (tgt e)) → acyclic g.
Proof.
  intros Hord n Hcycle.
  assert (∀ a b, tc (edgeRel g) a b → ord a < ord b) as Hlt.
  { induction 1 as [a b (e & He & <- & <-)|a b c (e & He & <- & <-) _ IH].
    - by apply Hord.
    - specialize (Hord e He). lia. }
  specialize (Hlt n n Hcycle). lia.
Qed.

Lemma acyclic_among g R :
  acyclic g → ∀ n, ¬ tc (linked (edgesAmong R (edges g))) n n.
Proof.
  intros Hacyc n Hcycle. apply (Hacyc n).
  apply (tc_congruence (fun x => x) (edgeRel g)) in Hcycle; [exact Hcycle|].
  intros a b (e & He & Hs & Ht).
  apply elem_of_edgesAmong in He as [He _]. by exists e.
Qed.

(** C9: in an acyclic graph every node is ranked or degraded, never
    cyclic, and every node is ranked when no node has a load error; along
    every edge between ranked nodes the rank of the target is greater
    than the rank of the source; and the ranks are the least such
    assignment: an assignment of numbers that increases along these edges
    gives no ranked node a number below its rank. *)
Theorem computeRanks_acyclic (g : Graph) :
  acyclic g →
  (∀ n, n ∈ (id <$> nodes g) →
     ∃ res, computeRanks g !! n = Some res ∧ res ≠ Unorderable Cyclic)
  ∧ ((∀ nd, nd ∈ nodes g → loadError nd = None) →
     ∀ n, n ∈ (id <$> nodes g) → ∃ r, computeRanks g !! n = Some (Ranked r))
  ∧ (∀ e a b,
       e ∈ edges g →
       computeRanks g !! src e = Some (Ranked a) →
       computeRanks g !! tgt e = Some (Ranked b) →
       a < b)
  ∧ (∀ f, respectsEdges g f →
       ∀ n r, computeRanks g !! n = Some (Ranked r) → r ≤ f n).
Proof.
  intros Hacyc.
  set (R := remaining g). set (E := edgesAmong R (edges g)).
  assert (Hfull : ∀ n, n ∈ (id <$> nodes g) →
            ∃ res, computeRanks g !! n = Some res
                   ∧ res ≠ Unorderable Cyclic
                   ∧ (n ∉ degraded g → ∃ r, res = Ranked r)).
  { intros n Hn. exists (rankOf g n).
    split; [by apply computeRanks_node|].
    unfold rankOf. case_bool_decide as Hdeg; [done|].
    fold R E.
    destruct (layers_complete R E (acyclic_among g R Hacyc)
                (length R) [] (inDegree E)
                (List.filter (fun m => Nat.eqb (inDegree E m) 0) R) n)
      as [Hnil|[k Hk]].
    - intros e He. by apply elem_of_edgesAmong in He as (_ & ? & _).
    - apply layersInv_init.
    - apply Nat.eq_le_incl. f_equal.
      apply bfilter_all. intros m.
      apply negb_true_iff, bool_decide_eq_false, not_elem_of_nil.
    - by apply elem_of_remaining.
    - by apply elem_of_nil in Hnil.
    - unfold kahn. rewrite Hk. split; [done|]. eauto. }
  split; [|split; [|split]].
  - intros n Hn. destruct (Hfull n Hn) as (res & ? & ? & _). eauto.
  - intros Hall n Hn. destruct (Hfull n Hn) as (res & Hres & _ & Hrank).
    destruct Hrank as [r ->]; [|eauto].
    rewrite (degraded_nil g Hall). apply not_elem_of_nil.
  - intros e a b He Ha Hb.
    apply computeRanks_lookup in Ha as [_ Ha].
    apply computeRanks_lookup in Hb as [_ Hb].
    symmetry in Ha, Hb.
    apply rankOf_ranked in Ha as [_ Ha]. apply rankOf_ranked in Hb as [_ Hb].
    fold R E in Ha, Hb.
    assert (e ∈ E) as HeE.
    { apply elem_of_edgesAmong.
      eauto using kahn_member. }
    destruct (layers_sources_earlier R E _ _ _ _ _ _ e
                (layersInv_init R E) Hb HeE eq_refl)
      as [Hnil|(i & Hi & Hsrc)].
    + by apply elem_of_nil in Hnil.
    + unfold kahn in Ha. rewrite Ha in Hsrc. by injection Hsrc as ->.
  - intros f Hf n r Hr.
    apply computeRanks_lookup in Hr as [_ Hr]. symmetry in Hr.
    apply rankOf_ranked in Hr as [_ Hr]. fold R E in Hr.
    revert n Hr. induction r as [|r IH]; intros n Hr; [lia|].
    destruct (layers_source_before R E _ _ _ _ _ r
                (layersInv_init R E) Hr) as (e & He & <- & Hsrc).
    specialize (IH _ Hsrc).
    assert (∀ m k, layerIndex (kahn R E) m = Some k →
              computeRanks g !! m = Some (Ranked k)) as Hback.
    { intros m k Hk.
      pose proof (kahn_member _ _ _ _ Hk) as Hm.
      apply elem_of_remaining in Hm as [Hm Hdeg].
      rewrite (computeRanks_node g m Hm). f_equal.
      by apply rankOf_ranked. }
    apply elem_of_edgesAmong in He as [He _].
    specialize (Hf e r (S r) He (Hback _ _ Hsrc) (Hback _ _ Hr)). lia.
Qed.

(** The scenarios of the specification. *)
Example chainAB_ranks :
  computeRanks chainAB = {[ "A" := Ranked 0; "B" := Ranked 1 ]}.
Proof. vm_compute. reflexivity. Qed.

Example cycleAB_ranks :
  computeRanks cycleAB
  = {[ "A" := Unorderable Cyclic; "B" := Unorderable Cyclic ]}.
Proof. vm_compute. reflexivity. Qed.

Lemma chainAB_acyclic : acyclic chainAB.
Proof.
  apply (numbered_acyclic chainAB
           (fun n => if bool_decide (n = "A") then 0 else 1)).
  intros e He. apply list_elem_of_singleton in He as ->.
  vm_compute. lia.
Qed.

Lemma computeRanks_acyclic_witness :
  (∃ r, computeRanks chainAB !! "B" = Some (Ranked r)) ∧ 0 < 1.
Proof.
  destruct (computeRanks_acyclic chainAB chainAB_acyclic)
    as (_ & Hranked & Hedge & _).
  split.
  - apply Hranked.
    + intros nd Hnd.
      apply elem_of_cons in Hnd as [->|Hnd]; [reflexivity|].
      apply list_elem_of_singleton in Hnd as ->. reflexivity.
    + compute_done.
  - apply (Hedge edgeAB 0 1); [|reflexivity|reflexivity].
    by apply list_elem_of_singleton.
Defined.

End OrderEngineProps.

(* ===================================================================== *)
(** * Further properties of spreadsheet ingestion *)
(* ===================================================================== *)

Module ParseExcelMore.

Import Js ParseExcel.

(** *** Trimming *)

Lemma trimEnd_keeps_head c s :
  isWhiteSpace c = false → trimEnd (String c s) = String c (trimEnd s).
Proof. intros Hc. simpl. rewrite Hc. by destruct (trimEnd s). Qed.

Lemma trimEnd_idempotent s : trimEnd (trimEnd s) = trimEnd s.
Proof.
  induction s as [|c s IH]; [reflexivity|]. simpl.
  destruct (trimEnd s) as [|c' t] eqn:Ht.
  - destruct (isWhiteSpace c) eqn:Hc; [reflexivity|].
    simpl. by rewrite Hc.
  - change (trimEnd (String c (String c' t)))
      with (match trimEnd (String c' t) with
            | EmptyString =>
                if isWhiteSpace c then EmptyString else String c EmptyString
            | t' => String c t'
            end).
    by rewrite IH.
Qed.

Lemma trimStart_head s :
  trimStart s = ""
  ∨ ∃ c t, trimStart s = String c t ∧ isWhiteSpace c = false.
Proof.
  induction s as [|c s IH]; [by left|]. simpl.
  destruct (isWhiteSpace c) eqn:Hc; [exact IH|]. right. eauto.
Qed.

Lemma trim_fixed s :
  trimStart (trim s) = trim s ∧ trimEnd (trim s) = trim s.
Proof.
  unfold trim. split; [|apply trimEnd_idempotent].
  destruct (trimStart_head s) as [->|(c & t & -> & Hc)]; [reflexivity|].
  rewrite (trimEnd_keeps_head _ _ Hc). simpl. by rewrite Hc.
Qed.

Lemma truthy_iff_nonempty s : truthy s = true ↔ s ≠ "".
Proof. destruct s; simpl; split; try done. Qed.

Section WithXLSX.

Variable number : Type.
Variable numberToString : number → string.
Variable WorkSheet : Type.
Variable XLSX_read : list Byte.byte → M (WorkBook WorkSheet).
Variable sheet_to_json :
  option WorkSheet → M (list (gmap string (Value number))).

Local Abbreviation parse :=
  (parseExcelFile number numberToString WorkSheet XLSX_read sheet_to_json).
Local Abbreviation names := (variableNamesOfRows number numberToString).

Lemma elem_of_names rows v :
  v ∈ names rows →
  v ≠ ""
  ∧ ∃ row, row ∈ rows
      ∧ v = trim (toString numberToString
                    (nullish (get row "variable_name") (Str ""))).
Proof.
  unfold variableNamesOfRows. rewrite !list_elem_of_In.
  intros [Hin Htruthy]%filter_In. split; [by apply truthy_iff_nonempty|].
  apply in_map_iff in Hin as (row & <- & Hrow).
  exists row. by rewrite list_elem_of_In.
Qed.

(** What [parseExcelFile] resolves with, case by case. *)
Lemma parse_cases file ev :
  let failed msg :=
    {| filename := name file; inputs := []; outputs := [];
       error := Some msg |} in
  (ev = ErrorEvent
   ∧ parse file ev = Resolved (failed "Failed to read the file from disk."))
  ∨ (∃ bytes err,
       ev = LoadEvent bytes ∧ XLSX_read bytes = inl err
       ∧ parse file ev =
           Resolved (failed ("Could not parse file: " +:+ messageText err)))
  ∨ (∃ bytes wb,
       ev = LoadEvent bytes ∧ XLSX_read bytes = inr wb
       ∧ ¬ ("INPUTS" ∈ SheetNames wb ∧ "OUTPUTS" ∈ SheetNames wb)
       ∧ parse file ev =
           Resolved (failed (missingMessage (missingSheets (SheetNames wb))
                               (SheetNames wb))))
  ∨ (∃ bytes wb err,
       ev = LoadEvent bytes ∧ XLSX_read bytes = inr wb
       ∧ "INPUTS" ∈ SheetNames wb ∧ "OUTPUTS" ∈ SheetNames wb
       ∧ (sheet_to_json (Sheets wb !! "INPUTS") = inl err
          ∨ sheet_to_json (Sheets wb !! "OUTPUTS") = inl err)
       ∧ parse file ev =
           Resolved (failed ("Could not parse file: " +:+ messageText err)))
  ∨ (∃ bytes wb rowsI rowsO,
       ev = LoadEvent bytes ∧ XLSX_read bytes = inr wb
       ∧ "INPUTS" ∈ SheetNames wb ∧ "OUTPUTS" ∈ SheetNames wb
       ∧ sheet_to_json (Sheets wb !! "INPUTS") = inr rowsI
       ∧ sheet_to_json (Sheets wb !! "OUTPUTS") = inr rowsO
       ∧ parse file ev =
           Resolved {| filename := name file; inputs := names rowsI;
                       outputs := names rowsO; error := None |}).
Proof.
  intros failed. destruct ev as [bytes|]; [|by left].
  right. simpl. unfold onload.
  destruct (XLSX_read bytes) as [err|wb] eqn:Hread.
  { left. exists bytes, err. unfold onloadTry. by rewrite Hread. }
  right.
  destruct (decide ("INPUTS" ∈ SheetNames wb ∧ "OUTPUTS" ∈ SheetNames wb))
    as [[Hi Ho]|Hmiss].
  - right.
    rewrite (ParseExcelProps.onloadTry_both _ _ _ _ _ file bytes wb Hread Hi Ho).
    destruct (sheet_to_json (Sheets wb !! "INPUTS")) as [err|rowsI] eqn:HI.
    { left. exists bytes, wb, err. simpl. auto 10. }
    destruct (sheet_to_json (Sheets wb !! "OUTPUTS")) as [err|rowsO] eqn:HO.
    { left. exists bytes, wb, err. simpl. auto 10. }
    right. exists bytes, wb, rowsI, rowsO. simpl. auto 10.
  - left. exists bytes, wb. repeat split; try done.
    unfold onloadTry. rewrite Hread. simpl.
    rewrite ParseExcelProps.missingSheets_cases.
    apply not_and_l in Hmiss as [Hn|Hn];
      rewrite (bool_decide_eq_false_2 _ Hn);
      by destruct (bool_decide _).
Qed.

(** X1: every name [parseExcelFile] returns, input or output, is non-empty
    and carries no white space at its start or at its end. *)
Theorem names_are_trimmed (file : File) (ev : ReaderEvent)
    (r : ParseResult) (v : string) :
  parse file ev = Resolved r →
  v ∈ inputs r ∨ v ∈ outputs r →
  v ≠ "" ∧ trimStart v = v ∧ trimEnd v = v.
Proof.
  intros Hparse Hv.
  assert (∃ rows, v ∈ names rows) as [rows Hrows].
  { destruct (parse_cases file ev)
      as [[_ H]|[(?&?&_&_&H)|[(?&?&_&_&_&H)|[(?&?&?&_&_&_&_&_&H)
          |(?&?&rowsI&rowsO&_&_&_&_&_&_&H)]]]];
      rewrite Hparse in H; injection H as ->; simpl in Hv;
      try (destruct Hv as [Hv|Hv]; by apply elem_of_nil in Hv).
    destruct Hv; eauto. }
  apply elem_of_names in Hrows as (Hne & row & _ & ->).
  split; [exact Hne|apply trim_fixed].
Qed.

Lemma resolved_filename file ev r :
  parse file ev = Resolved r → filename r = name file.
Proof.
  intros Hparse.
  destruct (parse_cases file ev)
    as [[_ H]|[(?&?&_&_&H)|[(?&?&_&_&_&H)|[(?&?&?&_&_&_&_&_&H)
        |(?&?&?&?&_&_&_&_&_&_&H)]]]];
    rewrite Hparse in H; by injection H as ->.
Qed.

Lemma error_message_nonempty file ev r msg :
  parse file ev = Resolved r → error r = Some msg → msg ≠ "".
Proof.
  intros Hparse Herr.
  destruct (parse_cases file ev)
    as [[_ H]|[(?&?&_&_&H)|[(?&wb&_&_&_&H)|[(?&?&?&_&_&_&_&_&H)
        |(?&?&rowsI&rowsO&_&_&_&_&_&_&H)]]]];
    rewrite Hparse in H; injection H as ->; simpl in Herr;
    first [discriminate Herr | injection Herr as <-; done].
Qed.

(** X2: a result that carries an error carries a non-empty message, no
    inputs and no outputs. *)
Theorem failure_is_empty_handed (file : File) (ev : ReaderEvent)
    (r : ParseResult) :
  parse file ev = Resolved r →
  error r ≠ None →
  (∃ msg, error r = Some msg ∧ msg ≠ "")
  ∧ inputs r = [] ∧ outputs r = [].
Proof.
  intros Hparse Herr. split.
  - destruct (error r) as [msg|] eqn:Hmsg; [|done].
    exists msg. split; [reflexivity|].
    by apply (error_message_nonempty file ev r).
  - destruct (parse_cases file ev)
      as [[_ H]|[(?&?&_&_&H)|[(?&wb&_&_&_&H)|[(?&?&?&_&_&_&_&_&H)
          |(?&?&rowsI&rowsO&_&_&_&_&_&_&H)]]]];
      rewrite Hparse in H; injection H as ->; simpl in *; done.
Qed.

(** X3: the result carries no error exactly when the file was read, the
    workbook was parsed and lists both INPUTS and OUTPUTS, and the rows
    of both sheets were read. *)
Theorem success_iff (file : File) (ev : ReaderEvent) (r : ParseResult) :
  parse file ev = Resolved r →
  error r = None ↔
  ∃ bytes wb rowsI rowsO,
    ev = LoadEvent bytes
    ∧ XLSX_read bytes = inr wb
    ∧ "INPUTS" ∈ SheetNames wb ∧ "OUTPUTS" ∈ SheetNames wb
    ∧ sheet_to_json (Sheets wb !! "INPUTS") = inr rowsI
    ∧ sheet_to_json (Sheets wb !! "OUTPUTS") = inr rowsO.
Proof.
  intros Hparse.
  destruct (parse_cases file ev)
    as [[Hev H]|[(b&?&Hev&Hread&H)|[(b&wb&Hev&Hread&Hmiss&H)
        |[(b&wb&?&Hev&Hread&Hi&Ho&Hthrow&H)
        |(b&wb&rowsI&rowsO&Hev&Hread&Hi&Ho&HI&HO&H)]]]];
    rewrite Hparse in H; injection H as ->; simpl; subst ev.
  - split; [done|]. intros (?&?&?&?&?&_). done.
  - split; [done|]. intros (?&?&?&?&[= <-]&Hr&_). congruence.
  - split; [done|]. intros (?&?&?&?&[= <-]&Hr&?&?&_).
    rewrite Hread in Hr. injection Hr as <-. tauto.
  - split; [done|]. intros (?&?&?&?&[= <-]&Hr&_&_&HI&HO).
    rewrite Hread in Hr. injection Hr as <-.
    destruct Hthrow; congruence.
  - split; [|done]. intros _. exists b, wb, rowsI, rowsO. auto 10.
Qed.

(** X4: the names read from a sheet depend on the [variable_name] column
    only: rows that agree on that key yield the same names, whatever
    their other columns hold. *)
Theorem other_columns_ignored
    (rows rows' : list (gmap string (Value number))) :
  Forall2 (fun row row' => row !! "variable_name" = row' !! "variable_name")
    rows rows' →
  names rows = names rows'.
Proof.
  unfold variableNamesOfRows. induction 1 as [|row row' rows rows' Hkey _ IH];
    [reflexivity|].
  assert (get row "variable_name" = get row' "variable_name") as Hget
    by (unfold get; by rewrite Hkey).
  simpl. rewrite Hget, IH. reflexivity.
Qed.

End WithXLSX.

Lemma names_are_trimmed_witness :
  "tax_rate" ≠ "" ∧ trimStart "tax_rate" = "tax_rate"
  ∧ trimEnd "tax_rate" = "tax_rate".
Proof.
  apply (names_are_trimmed Z pretty _ (readAs wbBoth) rowsOf
           {| name := "model.xlsx" |} (LoadEvent someBytes)
           {| filename := "model.xlsx";
              inputs := ["tax_rate"; "tax_rate"; "42"]; outputs := [];
              error := None |}).
  - vm_compute. reflexivity.
  - left. compute_done.
Defined.

Lemma failure_is_empty_handed_witness :
  (∃ msg,
     Some "Required sheet not found: OUTPUTS. Sheets in this file: INPUTS."
     = Some msg ∧ msg ≠ "")
  ∧ @nil string = [] ∧ @nil string = [].
Proof.
  apply (failure_is_empty_handed Z pretty _ (readAs wbInputsOnly) rowsOf
           {| name := "model.xlsx" |} (LoadEvent someBytes)
           {| filename := "model.xlsx"; inputs := []; outputs := [];
              error :=
                Some "Required sheet not found: OUTPUTS. Sheets in this file: INPUTS." |}).
  - vm_compute. reflexivity.
  - discriminate.
Defined.

Lemma success_iff_witness :
  @None string = None ↔
  ∃ bytes wb rowsI rowsO,
    LoadEvent someBytes = LoadEvent bytes
    ∧ readAs wbBoth bytes = inr wb
    ∧ "INPUTS" ∈ SheetNames wb ∧ "OUTPUTS" ∈ SheetNames wb
    ∧ rowsOf (Sheets wb !! "INPUTS") = inr rowsI
    ∧ rowsOf (Sheets wb !! "OUTPUTS") = inr rowsO.
Proof.
  apply (success_iff Z pretty _ (readAs wbBoth) rowsOf
           {| name := "model.xlsx" |} (LoadEvent someBytes)
           {| filename := "model.xlsx";
              inputs := ["tax_rate"; "tax_rate"; "42"]; outputs := [];
              error := None |}).
  vm_compute. reflexivity.
Defined.

Lemma other_columns_ignored_witness :
  variableNamesOfRows Z pretty
    [namedRow (Str " tax_rate"); otherRow (Str "ebitda")]
  = variableNamesOfRows Z pretty
      [<["unit" := Str "%"]> (namedRow (Str " tax_rate"));
       <["name" := Number 7%Z]> (otherRow (Str "ebitda"))].
Proof.
  apply (other_columns_ignored Z pretty).
  repeat constructor.
Defined.

End ParseExcelMore.

(* ===================================================================== *)
(** * Further properties of the model node *)
(* ===================================================================== *)

Module ModelNodeMore.

Import Js ModelNode.

(** *** Patching *)

(** X5: [patchData] changes nodes in place: a node keeps its position in the
    list, its id, type, canvas position and order, and a node with
    another id is left exactly as it was. *)
Theorem patchData_frame (id' : string) (updates : Updates)
    (nds : list Node) (i : nat) (n : Node) :
  nds !! i = Some n →
  ∃ n',
    patchData id' updates nds !! i = Some n'
    ∧ id n' = id n ∧ type n' = type n ∧ position n' = position n
    ∧ order (data n') = order (data n)
    ∧ (id n ≠ id' → n' = n).
Proof.
  intros Hn. rewrite (ModelNodeProps.patchData_lookup _ _ _ _ _ Hn).
  eexists. split; [reflexivity|]. case_bool_decide; simpl; done.
Qed.

Lemma patchData_frame_witness :
  ∃ n',
    patchData "node-1"
      {| u_label := Some "New.xlsx"; u_inputs := Some [];
         u_outputs := Some ["a"]; u_error := Some None |}
      [loadedNode; otherNode] !! 1 = Some n'
    ∧ id n' = id otherNode ∧ type n' = type otherNode
    ∧ position n' = position otherNode
    ∧ order (data n') = order (data otherNode)
    ∧ (id otherNode ≠ "node-1" → n' = otherNode).
Proof.
  apply (patchData_frame "node-1" _ [loadedNode; otherNode] 1 otherNode).
  reflexivity.
Defined.

(** X6: patches of two different nodes commute: the order in which two
    results arrive for two different nodes does not matter. *)
Theorem patchData_commute (id1 id2 : string) (u1 u2 : Updates)
    (nds : list Node) :
  id1 ≠ id2 →
  patchData id1 u1 (patchData id2 u2 nds)
  = patchData id2 u2 (patchData id1 u1 nds).
Proof.
  intros Hne. unfold patchData. rewrite !map_map.
  apply map_ext. intros n.
  destruct (decide (id n = id1)) as [H1|H1];
    destruct (decide (id n = id2)) as [H2|H2];
    [congruence|..];
    repeat first
      [ rewrite (bool_decide_eq_true_2 _ H1)
      | rewrite (bool_decide_eq_true_2 _ H2)
      | rewrite (bool_decide_eq_false_2 _ H1)
      | rewrite (bool_decide_eq_false_2 _ H2)
      | progress simpl ];
    reflexivity.
Qed.

Lemma patchData_commute_witness :
  patchData "node-1"
    {| u_label := None; u_inputs := None; u_outputs := None;
       u_error := Some (Some "bad") |}
    (patchData "node-3"
       {| u_label := Some "H.xlsx"; u_inputs := Some ["a"];
          u_outputs := Some []; u_error := Some None |}
       [loadedNode; otherNode])
  = patchData "node-3"
      {| u_label := Some "H.xlsx"; u_inputs := Some ["a"];
         u_outputs := Some []; u_error := Some None |}
      (patchData "node-1"
         {| u_label := None; u_inputs := None; u_outputs := None;
            u_error := Some (Some "bad") |}
         [loadedNode; otherNode]).
Proof. apply (patchData_commute "node-1" "node-3"). discriminate. Defined.

(** X7: a later patch of the same node that writes every key an earlier
    patch wrote makes the earlier patch invisible: the last complete
    result wins. *)
Theorem patchData_overwritten (id' : string) (u1 u2 : Updates)
    (nds : list Node) :
  (is_Some (u_label u1) → is_Some (u_label u2)) →
  (is_Some (u_inputs u1) → is_Some (u_inputs u2)) →
  (is_Some (u_outputs u1) → is_Some (u_outputs u2)) →
  (is_Some (u_error u1) → is_Some (u_error u2)) →
  patchData id' u2 (patchData id' u1 nds) = patchData id' u2 nds.
Proof.
  intros Hl Hi Ho He. unfold patchData. rewrite map_map.
  apply map_ext. intros n.
  destruct (bool_decide_reflect (id n = id')) as [Hid|Hid]; simpl.
  - rewrite (bool_decide_eq_true_2 _ Hid). f_equal.
    unfold spread. simpl.
    destruct u1 as [l1 i1 o1 e1], u2 as [l2 i2 o2 e2]. simpl in *.
    f_equal.
    + destruct l2; [done|]. destruct l1; [|done].
      by destruct Hl as [? [=]].
    + destruct i2; [done|]. destruct i1; [|done].
      by destruct Hi as [? [=]].
    + destruct o2; [done|]. destruct o1; [|done].
      by destruct Ho as [? [=]].
    + destruct e2; [done|]. destruct e1; [|done].
      by destruct He as [? [=]].
  - rewrite (bool_decide_eq_false_2 _ Hid). reflexivity.
Qed.

Lemma patchData_overwritten_witness :
  patchData "node-1"
    {| u_label := Some "B.xlsx"; u_inputs := Some ["b"];
       u_outputs := Some []; u_error := Some None |}
    (patchData "node-1"
       {| u_label := None; u_inputs := None; u_outputs := None;
          u_error := Some (Some "Only .xlsx / .xls files are accepted.") |}
       [loadedNode; otherNode])
  = patchData "node-1"
      {| u_label := Some "B.xlsx"; u_inputs := Some ["b"];
         u_outputs := Some []; u_error := Some None |}
      [loadedNode; otherNode].
Proof.
  apply (patchData_overwritten "node-1"); simpl; intros [? H];
    first [discriminate H | by eexists].
Defined.

(** X8: dismissing the error banner sets [error] to null and leaves label,
    order and both port lists as they were; the banner is then hidden. *)
Theorem dismissError_keeps_ports (id' : string) (nds : list Node)
    (i : nat) (n : Node) (isLoading : bool) :
  nds !! i = Some n →
  id n = id' →
  ∃ n',
    dismissError id' nds !! i = Some n'
    ∧ error (data n') = None
    ∧ label (data n') = label (data n)
    ∧ order (data n') = order (data n)
    ∧ inputs (data n') = inputs (data n)
    ∧ outputs (data n') = outputs (data n)
    ∧ showErrorBanner (data n') isLoading = false.
Proof.
  intros Hn Hid. unfold dismissError.
  rewrite (ModelNodeProps.patchData_lookup _ _ _ _ _ Hn).
  rewrite (bool_decide_eq_true_2 _ Hid).
  eexists. split; [reflexivity|]. simpl. repeat split.
Qed.

Lemma dismissError_keeps_ports_witness :
  ∃ n',
    dismissError "node-1" [clearedNode; otherNode] !! 0 = Some n'
    ∧ error (data n') = None
    ∧ label (data n') = label (data clearedNode)
    ∧ order (data n') = order (data clearedNode)
    ∧ inputs (data n') = inputs (data clearedNode)
    ∧ outputs (data n') = outputs (data clearedNode)
    ∧ showErrorBanner (data n') false = false.
Proof.
  apply (dismissError_keeps_ports "node-1" [clearedNode; otherNode] 0
           clearedNode false); reflexivity.
Defined.

(** *** File names *)

Lemma endsWith_iff s suf :
  endsWith s suf = true ↔ ∃ pre, s = pre +:+ suf.
Proof.
  split.
  - induction s as [|c s IH]; simpl.
    + case_bool_decide as Heq; [|done]. intros _. by exists "".
    + case_bool_decide as Heq; [intros _; by exists ""|].
      intros [pre ->]%IH. by exists (String c pre).
  - intros [pre ->]. induction pre as [|c pre IH].
    + change ("" +:+ suf) with suf.
      destruct suf; simpl; try case_bool_decide; done.
    + change (String c pre +:+ suf) with (String c (pre +:+ suf)).
      simpl. by case_bool_decide.
Qed.

Lemma lower_app a b : lower (a +:+ b) = lower a +:+ lower b.
Proof.
  induction a as [|c a IH]; [reflexivity|].
  change (String c a +:+ b) with (String c (a +:+ b)). simpl.
  rewrite IH. reflexivity.
Qed.

Lemma lower_app_inv s a b :
  lower s = a +:+ b →
  ∃ a' b', s = a' +:+ b' ∧ lower a' = a ∧ lower b' = b.
Proof.
  revert s. induction a as [|c a IH]; intros s Hs.
  - by exists "", s.
  - destruct s as [|c' s]; [done|].
    change (String c a +:+ b) with (String c (a +:+ b)) in Hs.
    simpl in Hs. injection Hs as Hc Hs.
    destruct (IH s Hs) as (a' & b' & -> & <- & <-).
    exists (String c' a'), b'. simpl. by rewrite Hc.
Qed.

(** X9: a file name is accepted exactly when it ends with ".xlsx" or ".xls"
    written in any mix of upper and lower case. *)
Theorem isExcelName_iff (name : string) :
  isExcelName name = true ↔
  ∃ base ext,
    name = base +:+ ext ∧ (lower ext = ".xlsx" ∨ lower ext = ".xls").
Proof.
  unfold isExcelName. rewrite orb_true_iff, !endsWith_iff. split.
  - intros [[pre Hpre]|[pre Hpre]];
      apply lower_app_inv in Hpre as (base & ext & -> & _ & Hext); eauto.
  - intros (base & ext & -> & [Hext|Hext]); rewrite lower_app, Hext; eauto.
Qed.

Section WithXLSX.

Variable number : Type.
Variable numberToString : number → string.
Variable WorkSheet : Type.
Variable XLSX_read : list Byte.byte → M (ParseExcel.WorkBook WorkSheet).
Variable sheet_to_json :
  option WorkSheet → M (list (gmap string (Value number))).

Local Abbreviation parse :=
  (ParseExcel.parseExcelFile number numberToString WorkSheet XLSX_read
     sheet_to_json).
Local Abbreviation drop :=
  (onDrop number numberToString WorkSheet XLSX_read sheet_to_json).

Lemma find_skips {A} (p : A → bool) (pre : list A) (x : A) (post : list A) :
  Forall (fun y => p y = false) pre → p x = true →
  find p (pre ++ x :: post) = Some x.
Proof.
  intros Hpre Hx. induction Hpre as [|y pre Hy _ IH]; simpl.
  - by rewrite Hx.
  - by rewrite Hy.
Qed.

(** X10: only the first spreadsheet file of a drop counts: the files before
    it that are no spreadsheets and all the files after it are
    ignored. *)
Theorem onDrop_first_spreadsheet (id' : string)
    (pre : list ParseExcel.File) (f : ParseExcel.File)
    (post : list ParseExcel.File) (ev : ParseExcel.ReaderEvent)
    (nds : list Node) :
  Forall (fun g => isExcelName (ParseExcel.name g) = false) pre →
  isExcelName (ParseExcel.name f) = true →
  drop id' (pre ++ f :: post) ev nds = drop id' [f] ev nds.
Proof.
  intros Hpre Hf. unfold onDrop.
  rewrite (find_skips _ pre f post Hpre Hf).
  rewrite (find_skips _ [] f [] (Forall_nil_2 _) Hf). reflexivity.
Qed.

(** X11: a drop on one node leaves the number of nodes and every node with
    another id as they were, whatever is dropped and whatever the reader
    and the library do; on a node that is gone it changes nothing. *)
Theorem onDrop_frame (id' : string) (files : list ParseExcel.File)
    (ev : ParseExcel.ReaderEvent) (nds : list Node) :
  length (drop id' files ev nds) = length nds
  ∧ (∀ i n, nds !! i = Some n → id n ≠ id' →
       drop id' files ev nds !! i = Some n)
  ∧ (id' ∉ (id <$> nds) → drop id' files ev nds = nds).
Proof.
  assert (∀ u, drop id' files ev nds = nds
               ∨ drop id' files ev nds = patchData id' u nds
               → length (drop id' files ev nds) = length nds
                 ∧ (∀ i n, nds !! i = Some n → id n ≠ id' →
                      drop id' files ev nds !! i = Some n)
                 ∧ (id' ∉ (id <$> nds) → drop id' files ev nds = nds))
    as Hshape.
  { intros u [->| ->]; [done|]. split; [|split].
    - apply ModelNodeProps.patchData_length.
    - intros i n Hn Hne.
      rewrite (ModelNodeProps.patchData_lookup _ _ _ _ _ Hn).
      by rewrite bool_decide_eq_false_2.
    - apply ModelNodeProps.patchData_absent. }
  unfold onDrop in *.
  destruct (find _ files) as [file|].
  - destruct (parse file ev) as [|r|e].
    + apply (Hshape {| u_label := None; u_inputs := None;
                       u_outputs := None; u_error := None |}). by left.
    + eapply Hshape. by right.
    + apply (Hshape {| u_label := None; u_inputs := None;
                       u_outputs := None; u_error := None |}). by left.
  - eapply Hshape. by right.
Qed.

(** X12: a drop whose file is parsed without error replaces label, inputs and
    outputs by those of the file and clears a previous error; the order
    is kept.  Afterwards the drop hint is shown exactly when the file
    yielded no name at all. *)
Theorem onDrop_success_effect (id' : string) (files : list ParseExcel.File)
    (ev : ParseExcel.ReaderEvent) (nds : list Node) (i : nat) (n : Node)
    (file : ParseExcel.File) (r : ParseExcel.ParseResult) :
  nds !! i = Some n →
  id n = id' →
  find (fun f => isExcelName (ParseExcel.name f)) files = Some file →
  parse file ev = Resolved r →
  ParseExcel.error r = None →
  ∃ n',
    drop id' files ev nds !! i = Some n'
    ∧ data n' = {| label := ParseExcel.name file;
                   order := order (data n);
                   inputs := ParseExcel.inputs r;
                   outputs := ParseExcel.outputs r;
                   error := None |}
    ∧ showErrorBanner (data n') false = false
    ∧ (showDropHint (data n') false = true ↔
       ParseExcel.inputs r = [] ∧ ParseExcel.outputs r = []).
Proof.
  intros Hn Hid Hfile Hparse Herr. unfold onDrop.
  rewrite Hfile, Hparse.
  rewrite (ModelNodeProps.patchData_lookup _ _ _ _ _ Hn).
  rewrite (bool_decide_eq_true_2 _ Hid).
  pose proof (ParseExcelMore.resolved_filename
                number numberToString WorkSheet XLSX_read sheet_to_json
                file ev r Hparse) as Hname.
  eexists. split; [reflexivity|]. unfold spread. simpl.
  rewrite Herr, Hname. split; [reflexivity|].
  unfold showErrorBanner, showDropHint, errorTruthy, hasPorts. simpl.
  split; [reflexivity|].
  destruct (ParseExcel.inputs r), (ParseExcel.outputs r); simpl;
    split; try done; intros [? ?]; done.
Qed.

(** X13: a drop that ends in an error always shows: the error stored on the
    node is a non-empty message, so once loading is over the error
    banner is displayed and the drop hint is not. *)
Theorem failed_drop_is_shown (id' : string) (files : list ParseExcel.File)
    (ev : ParseExcel.ReaderEvent) (nds : list Node) (i : nat) (n : Node) :
  nds !! i = Some n →
  id n = id' →
  find (fun f => isExcelName (ParseExcel.name f)) files = None
  ∨ (∃ file r,
       find (fun f => isExcelName (ParseExcel.name f)) files = Some file
       ∧ parse file ev = Resolved r ∧ ParseExcel.error r ≠ None) →
  ∃ n',
    drop id' files ev nds !! i = Some n'
    ∧ showErrorBanner (data n') false = true
    ∧ showDropHint (data n') false = false.
Proof.
  intros Hn Hid Hfail. unfold onDrop.
  destruct Hfail as [Hnone|(file & r & Hfile & Hparse & Herr)].
  - rewrite Hnone, (ModelNodeProps.patchData_lookup _ _ _ _ _ Hn).
    rewrite (bool_decide_eq_true_2 _ Hid).
    eexists. split; [reflexivity|].
    unfold showErrorBanner, showDropHint, errorTruthy. simpl.
    by rewrite andb_false_r.
  - rewrite Hfile, Hparse, (ModelNodeProps.patchData_lookup _ _ _ _ _ Hn).
    rewrite (bool_decide_eq_true_2 _ Hid).
    destruct (ParseExcel.error r) as [msg|] eqn:Hmsg; [|done].
    pose proof (ParseExcelMore.error_message_nonempty
                  number numberToString WorkSheet XLSX_read sheet_to_json
                  file ev r msg Hparse Hmsg) as Hne.
    eexists. split; [reflexivity|].
    unfold showErrorBanner, showDropHint, errorTruthy, spread. simpl.
    apply ParseExcelMore.truthy_iff_nonempty in Hne. rewrite Hne.
    by rewrite andb_false_r.
Qed.

End WithXLSX.

Lemma onDrop_first_spreadsheet_witness :
  dropToy ParseExcel.wbBoth "node-1"
    [ {| ParseExcel.name := "notes.txt" |};
      {| ParseExcel.name := "Model.XLSX" |};
      {| ParseExcel.name := "other.xls" |} ]
    (ParseExcel.LoadEvent ParseExcel.someBytes) [loadedNode; otherNode]
  = dropToy ParseExcel.wbBoth "node-1"
      [ {| ParseExcel.name := "Model.XLSX" |} ]
      (ParseExcel.LoadEvent ParseExcel.someBytes) [loadedNode; otherNode].
Proof.
  apply (onDrop_first_spreadsheet Z pretty _
           (ParseExcel.readAs ParseExcel.wbBoth) ParseExcel.rowsOf "node-1"
           [ {| ParseExcel.name := "notes.txt" |} ]
           {| ParseExcel.name := "Model.XLSX" |}
           [ {| ParseExcel.name := "other.xls" |} ]).
  - repeat constructor.
  - reflexivity.
Defined.

Lemma onDrop_frame_witness :
  dropToy ParseExcel.wbBoth "node-1"
    [ {| ParseExcel.name := "Model.xlsx" |} ]
    (ParseExcel.LoadEvent ParseExcel.someBytes) [otherNode; duplicateNode]
  = [otherNode; duplicateNode].
Proof.
  apply (onDrop_frame Z pretty _
           (ParseExcel.readAs ParseExcel.wbBoth) ParseExcel.rowsOf "node-1"
           [ {| ParseExcel.name := "Model.xlsx" |} ]
           (ParseExcel.LoadEvent ParseExcel.someBytes)
           [otherNode; duplicateNode]).
  compute_done.
Defined.

Lemma onDrop_success_effect_witness :
  ∃ n',
    dropToy ParseExcel.wbBoth "node-1"
      [ {| ParseExcel.name := "Model.XLSX" |} ]
      (ParseExcel.LoadEvent ParseExcel.someBytes) [clearedNode; otherNode]
      !! 0 = Some n'
    ∧ data n' = {| label := "Model.XLSX"; order := Some 1%Z;
                   inputs := ["tax_rate"; "tax_rate"; "42"];
                   outputs := []; error := None |}
    ∧ showErrorBanner (data n') false = false
    ∧ (showDropHint (data n') false = true ↔
       ["tax_rate"; "tax_rate"; "42"] = [] ∧ @nil string = []).
Proof.
  apply (onDrop_success_effect Z pretty _
           (ParseExcel.readAs ParseExcel.wbBoth) ParseExcel.rowsOf "node-1"
           [ {| ParseExcel.name := "Model.XLSX" |} ]
           (ParseExcel.LoadEvent ParseExcel.someBytes)
           [clearedNode; otherNode] 0 clearedNode
           {| ParseExcel.name := "Model.XLSX" |}
           {| ParseExcel.filename := "Model.XLSX";
              ParseExcel.inputs := ["tax_rate"; "tax_rate"; "42"];
              ParseExcel.outputs := []; ParseExcel.error := None |});
    first [reflexivity | vm_compute; reflexivity].
Defined.

Lemma failed_drop_is_shown_witness :
  ∃ n',
    dropToy ParseExcel.wbInputsOnly "node-1"
      [ {| ParseExcel.name := "Model.xlsx" |} ]
      (ParseExcel.LoadEvent ParseExcel.someBytes) [loadedNode; otherNode]
      !! 0 = Some n'
    ∧ showErrorBanner (data n') false = true
    ∧ showDropHint (data n') false = false.
Proof.
  apply (failed_drop_is_shown Z pretty _
           (ParseExcel.readAs ParseExcel.wbInputsOnly) ParseExcel.rowsOf
           "node-1" [ {| ParseExcel.name := "Model.xlsx" |} ]
           (ParseExcel.LoadEvent ParseExcel.someBytes)
           [loadedNode; otherNode] 0 loadedNode eq_refl eq_refl).
  right. eexists _, _. split; [reflexivity|]. split.
  - vm_compute. reflexivity.
  - discriminate.
Defined.

(** *** The drag overlay *)

Lemma drag_invariant_step st ev :
  isDragOver st = (1 <=? dragDepth st)%Z →
  isDragOver (handleDrag st ev) = (1 <=? dragDepth (handleDrag st ev))%Z.
Proof.
  intros Hinv. destruct st as [depth over]. simpl in Hinv. subst over.
  destruct ev; simpl; try reflexivity.
  - destruct (Z.eqb_spec (depth + 1) 1); [|destruct (Z.leb_spec 1 depth)];
      symmetry; first [apply Z.leb_le | apply Z.leb_gt]; lia.
  - destruct (Z.eqb_spec (depth - 1) 0); [|destruct (Z.leb_spec 1 depth)];
      symmetry; first [apply Z.leb_le | apply Z.leb_gt]; lia.
Qed.

(** X14: whatever drag events reach the node, in whatever order, the overlay
    is shown exactly when the drag depth is at least 1. *)
Theorem overlay_follows_depth (evs : list DragEvent) :
  isDragOver (handleDrags initialDragState evs)
  = (1 <=? dragDepth (handleDrags initialDragState evs))%Z.
Proof.
  unfold handleDrags.
  cut (∀ st, isDragOver st = (1 <=? dragDepth st)%Z →
         isDragOver (fold_left handleDrag evs st)
         = (1 <=? dragDepth (fold_left handleDrag evs st))%Z).
  { intros Hall. by apply Hall. }
  induction evs as [|ev evs IH]; intros st Hst; [exact Hst|].
  simpl. apply IH. by apply drag_invariant_step.
Qed.

Lemma drag_invariant_run evs st :
  isDragOver st = (1 <=? dragDepth st)%Z →
  isDragOver (fold_left handleDrag evs st)
  = (1 <=? dragDepth (fold_left handleDrag evs st))%Z.
Proof.
  revert st. induction evs as [|ev evs IH]; intros st Hst; [exact Hst|].
  simpl. apply IH. by apply drag_invariant_step.
Qed.

Lemma drag_depth_counts evs st :
  existsb isDrop evs = false →
  dragDepth (fold_left handleDrag evs st)
  = (dragDepth st + Z.of_nat (length (List.filter isEnter evs))
     - Z.of_nat (length (List.filter isLeave evs)))%Z.
Proof.
  revert st. induction evs as [|ev evs IH]; intros st Hnodrop; simpl.
  - lia.
  - simpl in Hnodrop. apply orb_false_iff in Hnodrop as [Hev Hnodrop].
    rewrite (IH _ Hnodrop). destruct ev; simpl in *; try done; lia.
Qed.

(** X15: between two drops the drag depth is the number of enter events minus
    the number of leave events, so the overlay is shown exactly when the
    cursor entered more elements than it left. *)
Theorem overlay_counts_enters (evs : list DragEvent) :
  existsb isDrop evs = false →
  dragDepth (handleDrags initialDragState evs)
  = (Z.of_nat (length (List.filter isEnter evs))
     - Z.of_nat (length (List.filter isLeave evs)))%Z
  ∧ isDragOver (handleDrags initialDragState evs)
    = (length (List.filter isLeave evs)
       <? length (List.filter isEnter evs)).
Proof.
  intros Hnodrop.
  pose proof (drag_depth_counts evs initialDragState Hnodrop) as Hdepth.
  simpl in Hdepth. split; [exact Hdepth|].
  unfold handleDrags.
  rewrite (drag_invariant_run evs initialDragState eq_refl).
  unfold handleDrags in Hdepth. rewrite Hdepth.
  destruct (Nat.ltb_spec (length (List.filter isLeave evs))
              (length (List.filter isEnter evs)));
    first [apply Z.leb_le | apply Z.leb_gt]; lia.
Qed.

Lemma overlay_counts_enters_witness :
  dragDepth
    (handleDrags initialDragState
       [DragEnter; DragEnter; DragOver; DragLeave; DragOver]) = 1%Z
  ∧ isDragOver
      (handleDrags initialDragState
         [DragEnter; DragEnter; DragOver; DragLeave; DragOver]) = true.
Proof.
  apply (overlay_counts_enters
           [DragEnter; DragEnter; DragOver; DragLeave; DragOver]).
  reflexivity.
Defined.

(** A drop ends the drag whatever came before it: what follows a drop
    starts from the initial drag state. *)
Lemma drop_resets evs evs' st :
  handleDrags st (evs ++ Drop :: evs') = handleDrags initialDragState evs'.
Proof. unfold handleDrags. by rewrite fold_left_app. Qed.

(** *** Handles *)

(** X16: an input and an output of a node never offer the same end, also when
    they carry the same name. *)
Theorem input_output_endpoints_disjoint (n : Node) (p : string * string) :
  p ∈ inputEndpoints n → p ∉ outputEndpoints n.
Proof.
  unfold inputEndpoints, outputEndpoints, inputHandles, outputHandles.
  rewrite !map_map, !list_elem_of_In, !in_map_iff.
  intros (a & <- & _) (b & Heq & _). simpl in Heq. discriminate.
Qed.

Lemma input_output_endpoints_disjoint_witness :
  ("node-4", "in-x") ∉ outputEndpoints duplicateNode.
Proof.
  apply (input_output_endpoints_disjoint duplicateNode).
  compute_done.
Defined.

(** X17: a node whose input names (resp. output names) are pairwise distinct
    offers pairwise distinct ends for them. *)
Theorem distinct_names_distinct_endpoints (n : Node) :
  (NoDup (inputs (data n)) → NoDup (inputEndpoints n))
  ∧ (NoDup (outputs (data n)) → NoDup (outputEndpoints n)).
Proof.
  unfold inputEndpoints, outputEndpoints, inputHandles, outputHandles.
  rewrite !map_map. simpl.
  split; intros Hnd.
  - assert (Inj (=) (=) (fun name : string => (id n, "in-" +:+ name)))
      by (intros a b [= Heq]; exact Heq).
    by apply (NoDup_fmap_2 (fun name : string => (id n, "in-" +:+ name))).
  - assert (Inj (=) (=) (fun name : string => (id n, "out-" +:+ name)))
      by (intros a b [= Heq]; exact Heq).
    by apply (NoDup_fmap_2 (fun name : string => (id n, "out-" +:+ name))).
Qed.

Lemma distinct_names_distinct_endpoints_witness :
  NoDup (inputEndpoints loadedNode) ∧ NoDup (outputEndpoints loadedNode).
Proof.
  destruct (distinct_names_distinct_endpoints loadedNode) as [Hin Hout].
  split; [apply Hin|apply Hout]; compute_done.
Defined.

End ModelNodeMore.

(* ===================================================================== *)
(** * Further properties of wiring *)
(* ===================================================================== *)

Module AppMore.

Import Js App.

(** X18: [onConnect] never removes or changes an edge: the edges it
    returns are the edges it was given, in order, followed by at most one
    new edge; in particular an input that has an incoming edge keeps it
    when a second one is connected. *)
Theorem onConnect_keeps_edges (params : Connection) (eds : list Edge) :
  ∃ new,
    onConnect addEdge params eds = eds ++ new ∧ length new ≤ 1.
Proof.
  unfold onConnect.
  destruct (AppProps.addEdge_cases
              {| p_connection := params; p_animated := true;
                 p_stroke := "#6366f1" |} eds)
    as [[Hsame _]|(_ & _ & _ & Hnew)].
  - exists []. rewrite app_nil_r. split; [exact Hsame|simpl; lia].
  - eexists [_]. split; [exact Hnew|simpl; lia].
Qed.

(** A second edge into an input that has one: both stay. *)
Example onConnect_second_edge_into_input :
  onConnect addEdge
    {| c_source := "node-1"; c_sourceHandle := Some "out-ebitda";
       c_target := "node-2"; c_targetHandle := Some "in-headcount" |}
    SAMPLE_EDGES
  = SAMPLE_EDGES
    ++ [ {| id := "xy-edge__node-1out-ebitda-node-2in-headcount";
            source := "node-1"; sourceHandle := Some "out-ebitda";
            target := "node-2"; targetHandle := Some "in-headcount";
            animated := true; stroke := "#6366f1" |} ].
Proof. reflexivity. Qed.

Lemma connectionExists_snoc c eds e :
  sameConnection e c = true → connectionExists c (eds ++ [e]) = true.
Proof.
  intros Hsame. unfold connectionExists.
  rewrite existsb_app. simpl. rewrite Hsame. by rewrite orb_true_r.
Qed.

Lemma new_edge_sameConnection c i a st :
  sameConnection
    {| id := i; source := c_source c; sourceHandle := c_sourceHandle c;
       target := c_target c; targetHandle := c_targetHandle c;
       animated := a; stroke := st |} c = true.
Proof.
  unfold sameConnection. simpl.
  rewrite !bool_decide_eq_true_2 by reflexivity.
  by rewrite !AppProps.sameHandle_refl.
Qed.

(** X19: connecting the same two ends twice is the same as connecting
    them once. *)
Theorem onConnect_idempotent (params : Connection) (eds : list Edge) :
  onConnect addEdge params (onConnect addEdge params eds)
  = onConnect addEdge params eds.
Proof.
  unfold onConnect.
  destruct (AppProps.addEdge_cases
              {| p_connection := params; p_animated := true;
                 p_stroke := "#6366f1" |} eds)
    as [[Hsame _]|(_ & _ & _ & Hnew)].
  - by rewrite !Hsame.
  - rewrite Hnew.
    destruct (AppProps.addEdge_cases
                {| p_connection := params; p_animated := true;
                   p_stroke := "#6366f1" |}
                (eds ++ [ {| id := getEdgeId params;
                             source := c_source params;
                             sourceHandle := c_sourceHandle params;
                             target := c_target params;
                             targetHandle := c_targetHandle params;
                             animated := true; stroke := "#6366f1" |} ]))
      as [[Hsame _]|(_ & _ & Hex & _)]; [exact Hsame|].
    simpl in Hex.
    rewrite connectionExists_snoc in Hex
      by apply new_edge_sameConnection.
    discriminate.
Qed.

(** Connecting the sample ends twice adds one edge. *)
Example onConnect_twice :
  onConnect addEdge (wire "node-3" "headcount" "node-1" "tax_rate")
    (onConnect addEdge (wire "node-3" "headcount" "node-1" "tax_rate")
       SAMPLE_EDGES)
  = SAMPLE_EDGES
    ++ [ {| id := "xy-edge__node-3out-headcount-node-1in-tax_rate";
            source := "node-3"; sourceHandle := Some "out-headcount";
            target := "node-1"; targetHandle := Some "in-tax_rate";
            animated := true; stroke := "#6366f1" |} ].
Proof. reflexivity. Qed.

End AppMore.
